(** * The device-flow token script [script/setup/getToken.mts]

    A shallow embedding of the script that runs GitHub's OAuth device
    authorization grant and stores the token in [.env], and the properties
    of it that the specification states.

    Layout: JavaScript strings and the [.env] rewrite ([Module Env]); the
    JSON bodies, the outside world and the trace of what the script does
    ([Module Flow]); then the lemmas and the theorems. *)

From Stdlib Require Import ZArith NArith List Bool Lia String Ascii.
Import ListNotations.

(** ** JavaScript strings

    A JavaScript string is a sequence of UTF-16 code units.  [.env] is read
    with the ['utf8'] encoding, so the script works on the decoded text;
    the store is modelled as that text, and a write followed by a read
    gives the text back. *)

Module Env.

Definition code_unit := N.
Definition jsstring := list code_unit.

(** A literal of ASCII characters, as written in the source. *)
Definition lit (s : string) : jsstring :=
  map N_of_ascii (list_ascii_of_string s).

Definition LF : code_unit := 10%N.

(** ['\n'] as the separator of [split] and [join]. *)
Definition is_lf (c : code_unit) : bool := N.eqb c LF.

(** The code units [String.prototype.trim] strips: ECMAScript WhiteSpace
    (TAB, VT, FF, SP, NBSP, ZWNBSP and the Unicode space separators) and
    LineTerminator (LF, CR, LS, PS). *)
Definition is_white_space (c : code_unit) : bool :=
  ((9 <=? c) && (c <=? 13)                (* TAB LF VT FF CR *)
   || (c =? 32) || (c =? 160)             (* SP, NBSP *)
   || (c =? 5760)                         (* U+1680 *)
   || ((8192 <=? c) && (c <=? 8202))      (* U+2000 .. U+200A *)
   || (c =? 8232) || (c =? 8233)          (* LS, PS *)
   || (c =? 8239) || (c =? 8287)          (* U+202F, U+205F *)
   || (c =? 12288) || (c =? 65279))%N.    (* U+3000, U+FEFF *)

(** [s.split('\n')]: never empty; [''.split('\n')] is [['']]. *)
Fixpoint split_lines (s : jsstring) : list jsstring :=
  match s with
  | [] => [[]]
  | c :: s' =>
      if is_lf c then [] :: split_lines s'
      else match split_lines s' with
           | l :: ls => (c :: l) :: ls
           | [] => [[c]]
           end
  end.

(** [lines.join('\n')]. *)
Fixpoint join_lines (ls : list jsstring) : jsstring :=
  match ls with
  | [] => []
  | l :: ls' =>
      match ls' with
      | [] => l
      | _ :: _ => l ++ LF :: join_lines ls'
      end
  end.

(** [s.startsWith(p)]. *)
Fixpoint startsWith (p s : jsstring) : bool :=
  match p, s with
  | [], _ => true
  | _ :: _, [] => false
  | a :: p', b :: s' => N.eqb a b && startsWith p' s'
  end.

Fixpoint trimStart (s : jsstring) : jsstring :=
  match s with
  | [] => []
  | c :: s' => if is_white_space c then trimStart s' else s
  end.

(** [s.trim()]. *)
Definition trim (s : jsstring) : jsstring :=
  rev (trimStart (rev (trimStart s))).

Definition is_empty (s : jsstring) : bool :=
  match s with [] => true | _ :: _ => false end.

(** The prefix of the line the script owns: ['GITHUB_OAUTH_TOKEN=']. *)
Definition TOKEN_KEY : jsstring := lit "GITHUB_OAUTH_TOKEN=".

(** [line => !line.startsWith('GITHUB_OAUTH_TOKEN=')] *)
Definition not_token_line (line : jsstring) : bool :=
  negb (startsWith TOKEN_KEY line).

(** [line => line.trim() !== ''] *)
Definition not_blank (line : jsstring) : bool :=
  negb (is_empty (trim line)).

(** [`GITHUB_OAUTH_TOKEN=${accessToken}`] *)
Definition token_line (accessToken : jsstring) : jsstring :=
  TOKEN_KEY ++ accessToken.

(** The text written to [.env] (lines 204-208 of the script):
<<
    raw.split('\n')
       .filter(line => !line.startsWith('GITHUB_OAUTH_TOKEN='))
       .concat([`GITHUB_OAUTH_TOKEN=${accessToken}`])
       .filter(line => line.trim() !== '')
       .join('\n')
>> *)
Definition save (raw accessToken : jsstring) : jsstring :=
  join_lines
    (filter not_blank
       (filter not_token_line (split_lines raw) ++ [token_line accessToken])).

(** The lines of a stored text. *)
Definition lines (store : jsstring) : list jsstring := split_lines store.

(** The lines that belong to other keys: neither blank nor the token's. *)
Definition unrelated (line : jsstring) : bool :=
  not_token_line line && not_blank line.

Definition unrelated_lines (store : jsstring) : list jsstring :=
  filter unrelated (lines store).

(** How often the token key occurs, as the script recognises it. *)
Definition token_key_count (store : jsstring) : nat :=
  List.length (filter (startsWith TOKEN_KEY) (lines store)).

Definition no_newline (s : jsstring) : Prop := Forall (fun c => is_lf c = false) s.

(** [a === b] on strings. *)
Fixpoint strict_eq (a b : jsstring) : bool :=
  match a, b with
  | [], [] => true
  | x :: a', y :: b' => N.eqb x y && strict_eq a' b'
  | _, _ => false
  end.

(** The position of a line among the lines of a store: the index of its
    first occurrence. *)
Fixpoint index_of (line : jsstring) (ls : list jsstring) : option nat :=
  match ls with
  | [] => None
  | l :: ls' =>
      if strict_eq l line then Some 0%nat
      else option_map S (index_of line ls')
  end.

End Env.

Import Env.

(** ** The flow

    The script talks to two endpoints, the terminal, the browser and the
    file system.  What they answer is collected in a [world]; what the
    script does is the list of [event]s it produces, ending with the exit
    of the process. *)

Module Flow.

Open Scope Z_scope.

(** A field of a JSON body that the script reads as a string: absent
    ([undefined]) or a string.  Numeric fields are absent or an integer
    number of seconds, in the range where JavaScript numbers are exact. *)
Definition field := option jsstring.

(** JavaScript truthiness of such a field: [undefined] and [''] are falsy. *)
Definition truthy (f : field) : bool :=
  match f with
  | None => false
  | Some s => negb (is_empty s)
  end.

(** [f === 'literal'] *)
Definition field_is (f : field) (s : jsstring) : bool :=
  match f with
  | None => false
  | Some v => strict_eq v s
  end.

(** The body of the device-authorization response ([response1]). *)
Record response1 := {
  user_code : field;
  device_code : field;
  verification_uri : field;
  expires_in : option Z;
  interval : option Z
}.

(** The body of a token response ([tokenResponse]). *)
Record tokenResponse := {
  access_token : field;
  error : field
}.

(** What [fetch(REQUEST1_URL)] and [.json()] give. *)
Inductive fetch1 :=
| Fetch1Failed                 (* fetch rejects, or [!request1Response.ok] *)
| Fetch1Unreadable             (* [.json()] rejects or the body is [null]:
                                  the rejection reaches [main().catch] *)
| Fetch1Json (r : response1).

(** What one [fetch(REQUEST2_URL)] and [.json()] give. *)
Inductive poll_reply :=
| PollThrows                   (* network error, or a body that [.json()]
                                  or the property reads reject *)
| PollJson (t : tokenResponse).

Record world := {
  isTTY : bool;
  request1 : fetch1;
  keypress_data : list N;        (* the bytes of the first stdin chunk *)
  open_rejects : bool;
  replies : nat -> poll_reply;   (* the reply to the n-th token request *)
  env_file : option jsstring;    (* [None]: [.env] does not exist *)
  read_throws : bool;
  write_throws : bool
}.

(** The console lines, by the statement that prints them. *)
Inductive message :=
| MsgNotTTY                 (* 'Not running in a TTY environment, ...' *)
| MsgBanner                 (* 'GitHub Copilot Token Setup' ... 'Step 1: ...' *)
| MsgRequestFailed          (* 'Failed to request device code from GitHub' *)
| MsgUnexpectedError        (* 'Unexpected error:' of [main().catch] *)
| MsgInvalidResponse        (* 'Invalid response from GitHub device authorization endpoint' *)
| MsgInstructions (code : field)   (* 'COPY THIS CODE: ' + user_code ... *)
| MsgCtrlC                  (* '^C' *)
| MsgOpening                (* 'Opening GitHub authorization page...' *)
| MsgIfNotOpened (uri : field)     (* 'If the page didn't open automatically, ...' *)
| MsgNavigate (uri : field)        (* 'Please manually navigate to: ...' *)
| MsgWaiting                (* 'Waiting for authorization...' *)
| MsgAuthorized             (* 'Authorization successful!' *)
| MsgPending                (* the hourglass written to stdout *)
| MsgSlowDown               (* 'Slowing down polling rate...' *)
| MsgExpired                (* 'Device code has expired. Please run the script again.' *)
| MsgDenied                 (* 'Authorization was denied. ...' *)
| MsgUnexpectedResponse     (* 'Unexpected response:' *)
| MsgPollError              (* 'Error polling for token:' *)
| MsgTimedOut               (* 'Timed out waiting for authorization' ... *)
| MsgSaving                 (* 'Saving token to .env file...' *)
| MsgSaved                  (* 'Token saved to .env file successfully' ... *)
| MsgSaveFailed             (* 'Failed to save token to .env file', 'Error:' *)
| MsgManualHint             (* 'You can manually add this line to your .env file:' *)
| MsgLine (line : jsstring). (* a line printed as it is *)

Inductive event :=
| Log (m : message)
| DeviceCodeRequest                  (* [fetch(REQUEST1_URL, ...)] *)
| AwaitKeypress
| OpenBrowser (uri : field)          (* [open(verification_uri)], raced with 5 s *)
| TokenRequest (device_code : field) (* [fetch(REQUEST2_URL, ...)] *)
| Sleep (ms : Z)                     (* [setTimeout(resolve, ms)], awaited *)
| WriteEnv (content : jsstring)      (* [fs.writeFileSync('.env', content)] done *)
| Exit (code : Z).                   (* [process.exit(code)] *)

Definition trace := list event.

(** JavaScript numbers as far as [maxAttempts] needs them. *)
Inductive jsnum :=
| Fin (z : Z)
| PosInf
| NegInf
| NaN.

(** [Math.floor(a / b)] for integers [a] and [b]. *)
Definition floor_div (a b : Z) : jsnum :=
  if b =? 0 then
    if 0 <? a then PosInf else if a <? 0 then NegInf else NaN
  else Fin (a / b).

(** [n < m] for an integer [n]. *)
Definition lt_num (n : Z) (m : jsnum) : bool :=
  match m with
  | Fin z => n <? z
  | PosInf => true
  | NegInf => false
  | NaN => false
  end.

(** The classification the [if]/[else if] chain of the loop makes. *)
Inductive PollOutcome :=
| Granted (accessToken : jsstring)
| Pending
| SlowDown
| ExpiredToken
| AccessDenied
| UnexpectedResponse
| TransientError.

(** The [else if] chain on [tokenResponse.error]. *)
Definition error_outcome (err : field) : PollOutcome :=
  if field_is err (lit "authorization_pending") then Pending
  else if field_is err (lit "slow_down") then SlowDown
  else if field_is err (lit "expired_token") then ExpiredToken
  else if field_is err (lit "access_denied") then AccessDenied
  else UnexpectedResponse.

Definition classify (p : poll_reply) : PollOutcome :=
  match p with
  | PollThrows => TransientError
  | PollJson t =>
      match access_token t with
      | Some tok =>
          if is_empty tok then error_outcome (error t) else Granted tok
      | None => error_outcome (error t)
      end
  end.

(** How the [while] loop is left. *)
Inductive loop_end :=
| Break (accessToken : jsstring)   (* [break] with the token *)
| Fallthrough                      (* the condition is false, no token *)
| Exited.                          (* [process.exit] inside the body *)

Section Loop.

Variable dc : field.             (* [response1.device_code] *)
Variable intv : Z.               (* [response1.interval] *)
Variable maxAttempts : jsnum.
Variable reply : nat -> poll_reply.

(** What one pass through the body does before [expiresIn -= interval],
    and whether the loop goes on ([None]) or is left. *)
Definition poll_once (attempts : nat) : trace * option loop_end :=
  let req := TokenRequest dc in
  match classify (reply attempts) with
  | Granted tok => ([req; Log MsgAuthorized], Some (Break tok))
  | Pending => ([req; Log MsgPending], None)
  | SlowDown => ([req; Log MsgSlowDown; Sleep 1000], None)
  | ExpiredToken => ([req; Log MsgExpired; Exit 1], Some Exited)
  | AccessDenied => ([req; Log MsgDenied; Exit 1], Some Exited)
  | UnexpectedResponse => ([req; Log MsgUnexpectedResponse], None)
  | TransientError => ([req; Log MsgPollError], None)
  end.

(** [expiresIn > 0 && attempts < maxAttempts] *)
Definition loop_cond (expiresIn : Z) (attempts : nat) : bool :=
  (0 <? expiresIn) && lt_num (Z.of_nat attempts) maxAttempts.

(** [while (expiresIn > 0 && attempts < maxAttempts) { attempts++; ... }]
    [attempts] counts the passes made so far, so the pass that starts
    reads [reply attempts].  [None]: the fuel ran out. *)
Fixpoint poll_loop (fuel : nat) (expiresIn : Z) (attempts : nat)
  : option (trace * loop_end) :=
  match fuel with
  | O => None
  | S fuel' =>
      if loop_cond expiresIn attempts then
        match poll_once attempts with
        | (evs, Some e) => Some (evs, e)
        | (evs, None) =>
            match poll_loop fuel' (expiresIn - intv) (S attempts) with
            | Some (tr, e) => Some (evs ++ Sleep (1000 * intv) :: tr, e)
            | None => None
            end
        end
      else Some ([], Fallthrough)
  end.

(** The events of the [k] passes from pass [n] on, when none of them
    leaves the loop. *)
Fixpoint passes (n k : nat) : trace :=
  match k with
  | O => []
  | S k' => fst (poll_once n) ++ Sleep (1000 * intv) :: passes (S n) k'
  end.

End Loop.

(** Step 4 of [main], from [let expiresIn = response1.expires_in].  With
    [expires_in] absent, [undefined > 0] is false; with [interval] absent,
    [maxAttempts] is [NaN] and [0 < NaN] is false: the body never runs. *)
Definition poll (fuel : nat) (r : response1) (reply : nat -> poll_reply)
  : option (trace * loop_end) :=
  match expires_in r, interval r with
  | Some e, Some i =>
      poll_loop (device_code r) i (floor_div e i) reply fuel e 0%nat
  | _, _ => Some ([], Fallthrough)
  end.

(** Step 5 of [main]: the [try]/[catch] around the rewrite of [.env]. *)
Definition store_token (w : world) (accessToken : jsstring) : trace :=
  let failed :=
    [Log MsgSaveFailed; Log MsgManualHint;
     Log (MsgLine (token_line accessToken)); Exit 1] in
  match env_file w with
  | Some raw =>
      if read_throws w then failed
      else if write_throws w then failed
      else [WriteEnv (save raw accessToken); Log MsgSaved; Exit 0]
  | None =>
      if write_throws w then failed
      else [WriteEnv (save [] accessToken); Log MsgSaved; Exit 0]
  end.

(** What follows the loop. *)
Definition after_poll (w : world) (e : loop_end) : trace :=
  match e with
  | Exited => []
  | Fallthrough => [Log MsgTimedOut; Exit 1]
  | Break tok => Log MsgSaving :: store_token w tok
  end.

(** The first stdin chunk starts with byte 3. *)
Definition is_ctrl_c (data : list N) : bool :=
  match data with
  | b :: _ => N.eqb b 3
  | [] => false
  end.

(** [!response1.user_code || !response1.device_code] *)
Definition invalid_response (r : response1) : bool :=
  negb (truthy (user_code r)) || negb (truthy (device_code r)).

(** Steps 1 and 2 of [main] for an accepted response, up to the wait for a
    key. *)
Definition shown (r : response1) : trace :=
  [Log MsgBanner; DeviceCodeRequest;
   Log (MsgInstructions (user_code r)); AwaitKeypress].

(** Step 3 of [main]: the browser, and the line that opens step 4. *)
Definition opened (w : world) (r : response1) : trace :=
  [Log MsgOpening; OpenBrowser (verification_uri r);
   Log (if open_rejects w
        then MsgNavigate (verification_uri r)
        else MsgIfNotOpened (verification_uri r));
   Log MsgWaiting].

(** The whole script: the TTY guard at the bottom of the file, then
    [main()].  [None]: the loop did not end within [fuel] passes. *)
Definition main (fuel : nat) (w : world) : option trace :=
  if negb (isTTY w) then Some [Log MsgNotTTY; Exit 0]
  else
    match request1 w with
    | Fetch1Failed =>
        Some [Log MsgBanner; DeviceCodeRequest; Log MsgRequestFailed; Exit 1]
    | Fetch1Unreadable =>
        Some [Log MsgBanner; DeviceCodeRequest; Log MsgUnexpectedError; Exit 1]
    | Fetch1Json r =>
        if invalid_response r then
          Some [Log MsgBanner; DeviceCodeRequest; Log MsgInvalidResponse; Exit 1]
        else if is_ctrl_c (keypress_data w) then
          Some (shown r ++ [Log MsgCtrlC; Exit 1])
        else
          match poll fuel r (replies w) with
          | None => None
          | Some (tr, e) =>
              Some (shown r ++ opened w r ++ tr ++ after_poll w e)
          end
    end.

(** *** Observations on traces and worlds *)

Definition is_poll (e : event) : bool :=
  match e with TokenRequest _ => true | _ => false end.

(** The number of token requests issued. *)
Definition count_polls (tr : trace) : nat := List.length (filter is_poll tr).

(** For each token request of a trace, the milliseconds the script has
    spent in its own timers when it issues the request, starting from
    [slept].  The time that really passed is at least that. *)
Fixpoint poll_times (slept : Z) (tr : trace) : list Z :=
  match tr with
  | [] => []
  | TokenRequest _ :: tr' => slept :: poll_times slept tr'
  | Sleep ms :: tr' => poll_times (slept + ms) tr'
  | _ :: tr' => poll_times slept tr'
  end.

Definition is_slow_down (p : poll_reply) : bool :=
  match classify p with SlowDown => true | _ => false end.

(** The number of [slow_down] replies among the first [k]. *)
Fixpoint slow_downs (reply : nat -> poll_reply) (k : nat) : Z :=
  match k with
  | O => 0
  | S k' => slow_downs reply k' + (if is_slow_down (reply k') then 1 else 0)
  end.

(** The outcomes after which the loop goes round again. *)
Definition continues (o : PollOutcome) : bool :=
  match o with
  | Granted _ | ExpiredToken | AccessDenied => false
  | Pending | SlowDown | UnexpectedResponse | TransientError => true
  end.

(** The loop condition at the start of pass [k], when [expiresIn] has been
    decremented [k] times. *)
Definition enters (e i : Z) (k : nat) : bool :=
  (0 <? e - Z.of_nat k * i) && lt_num (Z.of_nat k) (floor_div e i).

(** [ceil(a / b)] for integers. *)
Definition ceil_div (a b : Z) : Z := - ((- a) / b).

(** A response sequence, continued by [rest]. *)
Definition script (l : list poll_reply) (rest : poll_reply) : nat -> poll_reply :=
  fun n => nth n l rest.

Definition reply_error (e : string) : poll_reply :=
  PollJson {| access_token := None; error := Some (lit e) |}.

Definition reply_pending : poll_reply := reply_error "authorization_pending".
Definition reply_slow_down : poll_reply := reply_error "slow_down".
Definition reply_expired : poll_reply := reply_error "expired_token".
Definition reply_denied : poll_reply := reply_error "access_denied".
Definition reply_granted (tok : jsstring) : poll_reply :=
  PollJson {| access_token := Some tok; error := None |}.

(** The replies with every network error replaced by [authorization_pending]. *)
Definition errors_as_pending (reply : nat -> poll_reply) : nat -> poll_reply :=
  fun n => match reply n with
           | PollThrows => reply_pending
           | PollJson t => PollJson t
           end.

Definition with_replies (w : world) (reply : nat -> poll_reply) : world :=
  {| isTTY := isTTY w; request1 := request1 w;
     keypress_data := keypress_data w; open_rejects := open_rejects w;
     replies := reply; env_file := env_file w;
     read_throws := read_throws w; write_throws := write_throws w |}.

Definition is_log (e : event) : bool :=
  match e with Log _ => true | _ => false end.

(** What a run does apart from what it prints. *)
Definition actions (tr : trace) : trace := filter (fun e => negb (is_log e)) tr.

(** The actions of a run of the loop, and how it was left. *)
Definition acts (res : trace * loop_end) : trace * loop_end :=
  (actions (fst res), snd res).

(** The rewrite of [.env] throws. *)
Definition persist_fails (w : world) : bool :=
  match env_file w with
  | Some _ => read_throws w || write_throws w
  | None => write_throws w
  end.

(** The script gets as far as the poll loop with the response [r]. *)
Definition reaches_polling (w : world) (r : response1) : Prop :=
  isTTY w = true /\ request1 w = Fetch1Json r /\
  invalid_response r = false /\ is_ctrl_c (keypress_data w) = false.

(** The five fields of a device-authorization response are all there. *)
Definition has_all_fields (r : response1) : bool :=
  match user_code r, device_code r, verification_uri r,
        expires_in r, interval r with
  | Some _, Some _, Some _, Some _, Some _ => true
  | _, _, _, _, _ => false
  end.

(** *** Sample responses and worlds *)

Definition sample_response (e i : Z) : response1 :=
  {| user_code := Some (lit "WDJB-MJHT");
     device_code := Some (lit "3584d83530557fdd1f46af8289938c8ef79f9dc5");
     verification_uri := Some (lit "https://github.com/login/device");
     expires_in := Some e;
     interval := Some i |}.

(** A terminal, a key other than Ctrl+C, a browser that opens, and a
    [.env] with one other key. *)
Definition sample_world (r : response1) (reply : nat -> poll_reply) : world :=
  {| isTTY := true; request1 := Fetch1Json r; keypress_data := [13%N];
     open_rejects := false; replies := reply;
     env_file := Some (lit "FOO=bar");
     read_throws := false; write_throws := false |}.

(** The same with a file system that refuses the write. *)
Definition read_only_world (r : response1) (reply : nat -> poll_reply) : world :=
  {| isTTY := true; request1 := Fetch1Json r; keypress_data := [13%N];
     open_rejects := false; replies := reply;
     env_file := Some (lit "FOO=bar");
     read_throws := false; write_throws := true |}.

(** A response without a verification URI. *)
Definition response_without_uri : response1 :=
  {| user_code := Some (lit "WDJB-MJHT");
     device_code := Some (lit "3584d83530557fdd1f46af8289938c8ef79f9dc5");
     verification_uri := None;
     expires_in := Some 900;
     interval := Some 5 |}.

End Flow.

Import Flow.

(** The upsert as the specification words it, for a first token [t1] and a
    second token [t2]: the lines of other keys are the same lines in the
    same order, each line of another key keeps its index among the lines
    of the store, and the second save leaves what saving [t2] alone
    leaves, with the key in it once. *)
Definition upsert_as_specified (raw t1 t2 : jsstring) : Prop :=
  unrelated_lines (save raw t1) = unrelated_lines raw /\
  (forall u, In u (unrelated_lines raw) ->
     index_of u (lines (save raw t1)) = index_of u (lines raw)) /\
  save (save raw t1) t2 = save raw t2 /\
  token_key_count (save (save raw t1) t2) = 1%nat.

(** ** Blank lines

    The code units that [trim] strips, one by one: TAB, LF, VT, FF, CR,
    SP, NBSP, U+1680, U+2000 to U+200A, LS, PS, U+202F, U+205F, U+3000 and
    U+FEFF. *)
Definition white_space_code_units : list code_unit :=
  [9; 10; 11; 12; 13; 32; 160; 5760;
   8192; 8193; 8194; 8195; 8196; 8197; 8198; 8199; 8200; 8201; 8202;
   8232; 8233; 8239; 8287; 12288; 65279]%N.

(** An empty or white-space-only line: every code unit of it is one that
    [trim] strips. *)
Definition whitespace_only (line : jsstring) : Prop :=
  forall c, In c line -> In c white_space_code_units.

(** ** Further observations on runs *)

Definition is_exit (e : event) : bool :=
  match e with Exit _ => true | _ => false end.

Definition is_write (e : event) : bool :=
  match e with WriteEnv _ => true | _ => false end.

Definition is_device_code_request (e : event) : bool :=
  match e with DeviceCodeRequest => true | _ => false end.

Definition is_open (e : event) : bool :=
  match e with OpenBrowser _ => true | _ => false end.

(** [raw] of step 5: the text of [.env], or [''] when there is no file. *)
Definition prior_store (w : world) : jsstring :=
  match env_file w with
  | Some raw => raw
  | None => []
  end.

(** Outcomes after which a pass does the same apart from the line it
    prints: the three that only print, and otherwise equal outcomes. *)
Definition same_effect (o o' : PollOutcome) : bool :=
  match o, o' with
  | Granted a, Granted b => strict_eq a b
  | SlowDown, SlowDown => true
  | ExpiredToken, ExpiredToken => true
  | AccessDenied, AccessDenied => true
  | (Pending | UnexpectedResponse | TransientError),
    (Pending | UnexpectedResponse | TransientError) => true
  | _, _ => false
  end.

(** [response1.interval] as the loop uses it in a pass; the loop makes no
    pass when it is absent. *)
Definition interval_of (r : response1) : Z :=
  match interval r with
  | Some i => i
  | None => 0%Z
  end.

(** A reply that is neither a token nor one of the four known errors. *)
Definition reply_unknown : poll_reply :=
  PollJson {| access_token := None; error := Some (lit "server_error") |}.

(** * Lemmas on strings and lines *)

Section LineLemmas.

Lemma split_lines_not_nil (s : jsstring) : split_lines s <> [].
Proof.
  induction s as [|c s IH]; cbn; [discriminate|].
  destruct (is_lf c); [discriminate|].
  destruct (split_lines s); discriminate.
Qed.

(** A text without a line feed is its own single line. *)
Lemma split_lines_single (a : jsstring) :
  no_newline a -> split_lines a = [a].
Proof.
  induction 1 as [|c a Hc _ IH]; cbn; [reflexivity|].
  now rewrite Hc, IH.
Qed.

(** The first line feed of a text ends its first line. *)
Lemma split_lines_cons_line (a s : jsstring) :
  no_newline a -> split_lines (a ++ LF :: s) = a :: split_lines s.
Proof.
  induction 1 as [|c a Hc _ IH]; cbn; [reflexivity|].
  now rewrite Hc, IH.
Qed.

Lemma split_lines_no_newline (s : jsstring) :
  Forall no_newline (split_lines s).
Proof.
  induction s as [|c s IH]; cbn.
  - repeat constructor.
  - destruct (is_lf c) eqn:Hc.
    + constructor; [constructor | exact IH].
    + destruct (split_lines s) as [|l ls]; inversion IH; subst;
        repeat constructor; assumption.
Qed.

(** Splitting what was joined: the lines before the last are given
    back, the last one is split again. *)
Lemma split_join_app (ls : list jsstring) (x : jsstring) :
  Forall no_newline ls ->
  split_lines (join_lines (ls ++ [x])) = ls ++ split_lines x.
Proof.
  induction 1 as [|l ls Hl _ IH]; [reflexivity|].
  change ((l :: ls) ++ [x]) with (l :: (ls ++ [x])).
  cbn [join_lines].
  destruct (ls ++ [x]) eqn:E; [now destruct ls|].
  rewrite split_lines_cons_line by assumption.
  now rewrite IH.
Qed.

Lemma startsWith_app (p s : jsstring) : startsWith p (p ++ s) = true.
Proof.
  induction p as [|a p IH]; [reflexivity|].
  cbn. now rewrite N.eqb_refl, IH.
Qed.

Lemma trimStart_nil_iff (s : jsstring) :
  trimStart s = [] <-> forallb is_white_space s = true.
Proof.
  induction s as [|c s IH]; cbn; [tauto|].
  destruct (is_white_space c); cbn; [exact IH|].
  split; discriminate.
Qed.

Lemma trimStart_white (s : jsstring) :
  forallb is_white_space (trimStart s) = true -> trimStart s = [].
Proof.
  induction s as [|c s IH]; cbn; [reflexivity|].
  destruct (is_white_space c) eqn:Hc; [exact IH|].
  cbn. rewrite Hc. discriminate.
Qed.

Lemma forallb_rev (f : code_unit -> bool) (s : jsstring) :
  forallb f (rev s) = forallb f s.
Proof.
  induction s as [|c s IH]; [reflexivity|].
  cbn. rewrite forallb_app, IH. cbn.
  rewrite andb_true_r. apply andb_comm.
Qed.

(** A line is blank exactly when all its code units are white space. *)
Lemma trim_nil_iff (s : jsstring) :
  trim s = [] <-> forallb is_white_space s = true.
Proof.
  unfold trim. split.
  - intros H.
    assert (H1 : trimStart (rev (trimStart s)) = []).
    { destruct (trimStart (rev (trimStart s))) as [|c l]; [reflexivity|].
      cbn in H. apply app_eq_nil in H. destruct H; discriminate. }
    apply trimStart_nil_iff in H1. rewrite forallb_rev in H1.
    apply trimStart_nil_iff. now apply trimStart_white.
  - intros H. apply trimStart_nil_iff in H. now rewrite H.
Qed.

Lemma not_blank_head (c : code_unit) (s : jsstring) :
  is_white_space c = false -> not_blank (c :: s) = true.
Proof.
  intros Hc. unfold not_blank.
  destruct (trim (c :: s)) eqn:E; [|reflexivity].
  apply trim_nil_iff in E. cbn in E. now rewrite Hc in E.
Qed.

Lemma not_blank_token_line (t : jsstring) : not_blank (token_line t) = true.
Proof. now apply not_blank_head. Qed.

Lemma startsWith_token_line (t : jsstring) :
  startsWith TOKEN_KEY (token_line t) = true.
Proof. apply startsWith_app. Qed.

Lemma no_newline_TOKEN_KEY : no_newline TOKEN_KEY.
Proof. repeat constructor. Qed.

Lemma no_newline_token_line (t : jsstring) :
  no_newline t -> no_newline (token_line t).
Proof. intros H. apply Forall_app. split; [apply no_newline_TOKEN_KEY | exact H]. Qed.

Lemma filter_unrelated (ls : list jsstring) :
  filter not_blank (filter not_token_line ls) = filter unrelated ls.
Proof.
  induction ls as [|l ls IH]; [reflexivity|].
  cbn. unfold unrelated at 1.
  destruct (not_token_line l); cbn; [|exact IH].
  destruct (not_blank l); now rewrite IH.
Qed.

Lemma strict_eq_refl (a : jsstring) : strict_eq a a = true.
Proof. induction a as [|x a IH]; [reflexivity|]. cbn. now rewrite N.eqb_refl. Qed.

Lemma strict_eq_eq (a b : jsstring) : strict_eq a b = true <-> a = b.
Proof.
  split; [|intros ->; apply strict_eq_refl].
  revert b. induction a as [|x a IH]; intros [|y b]; cbn; try discriminate; auto.
  intros H. apply andb_true_iff in H. destruct H as [H1 H2].
  apply N.eqb_eq in H1. f_equal; auto.
Qed.

Lemma index_of_app_In (u : jsstring) (ls ls' : list jsstring) :
  In u ls -> index_of u (ls ++ ls') = index_of u ls.
Proof.
  induction ls as [|l ls IH]; [contradiction|].
  intros H. cbn. destruct (strict_eq l u) eqn:E; [reflexivity|].
  destruct H as [->|H]; [now rewrite strict_eq_refl in E|].
  now rewrite IH.
Qed.

End LineLemmas.

(** ** What [save] writes *)

Section SaveLemmas.

Variables raw t : jsstring.

(** The text written is the lines of other keys, then the token's line. *)
Lemma save_join : save raw t = join_lines (unrelated_lines raw ++ [token_line t]).
Proof.
  unfold save, unrelated_lines, lines.
  rewrite filter_app, filter_unrelated. cbn [filter].
  now rewrite not_blank_token_line.
Qed.

Lemma unrelated_lines_no_newline : Forall no_newline (unrelated_lines raw).
Proof.
  unfold unrelated_lines, lines.
  apply Forall_forall. intros l Hl. apply filter_In in Hl.
  pose proof (split_lines_no_newline raw) as H.
  rewrite Forall_forall in H. now apply H.
Qed.

Lemma lines_save : lines (save raw t) = unrelated_lines raw ++ lines (token_line t).
Proof.
  rewrite save_join. unfold lines at 1.
  apply split_join_app, unrelated_lines_no_newline.
Qed.

Lemma lines_save_single :
  no_newline t -> lines (save raw t) = unrelated_lines raw ++ [token_line t].
Proof.
  intros H. rewrite lines_save. unfold lines.
  now rewrite split_lines_single by now apply no_newline_token_line.
Qed.

Lemma unrelated_lines_all : forallb unrelated (unrelated_lines raw) = true.
Proof. apply forallb_filter. Qed.

Lemma unrelated_token_line : unrelated (token_line t) = false.
Proof. unfold unrelated, not_token_line. now rewrite startsWith_token_line. Qed.

End SaveLemmas.

Section UpsertLemmas.

Variables raw t : jsstring.

Lemma unrelated_lines_save :
  no_newline t -> unrelated_lines (save raw t) = unrelated_lines raw.
Proof.
  intros H. unfold unrelated_lines at 1.
  rewrite lines_save_single by assumption.
  rewrite filter_app. cbn [filter]. rewrite unrelated_token_line, app_nil_r.
  apply forallb_filter_id, unrelated_lines_all.
Qed.

Lemma token_lines_of_unrelated :
  filter (startsWith TOKEN_KEY) (unrelated_lines raw) = [].
Proof.
  pose proof (unrelated_lines_all raw) as H.
  induction (unrelated_lines raw) as [|l ls IH]; [reflexivity|].
  cbn [forallb] in H. apply andb_true_iff in H. destruct H as [Hl Hls].
  cbn [filter]. unfold unrelated, not_token_line in Hl.
  destruct (startsWith TOKEN_KEY l); [discriminate|]. now apply IH.
Qed.

Lemma token_key_count_save :
  no_newline t -> token_key_count (save raw t) = 1%nat.
Proof.
  intros H. unfold token_key_count.
  rewrite lines_save_single by assumption.
  rewrite filter_app, token_lines_of_unrelated. cbn [filter app].
  now rewrite startsWith_token_line.
Qed.

(** Saving over a store that a save wrote forgets the token saved first. *)
Lemma save_save (t' : jsstring) :
  no_newline t -> save (save raw t) t' = save raw t'.
Proof.
  intros H. rewrite (save_join (save raw t)), (save_join raw t').
  now rewrite unrelated_lines_save.
Qed.

End UpsertLemmas.

(** * Sample runs *)

(** [Pending, Pending, Granted]: three requests, two sleeps of the
    interval, the token stored after the other key, exit status 0. *)
Example run_pending_pending_granted :
  let r := sample_response 900 5 in
  main 3 (sample_world r
            (script [reply_pending; reply_pending; reply_granted (lit "gho_x")]
               reply_pending)) =
  Some (shown r ++ opened (sample_world r (fun _ => reply_pending)) r ++
        [TokenRequest (device_code r); Log MsgPending; Sleep 5000;
         TokenRequest (device_code r); Log MsgPending; Sleep 5000;
         TokenRequest (device_code r); Log MsgAuthorized;
         Log MsgSaving;
         WriteEnv (lit "FOO=bar" ++ LF :: lit "GITHUB_OAUTH_TOKEN=gho_x");
         Log MsgSaved; Exit 0])%Z.
Proof. reflexivity. Qed.

(** Only [authorization_pending] until the budget of 900 / 300 = 3 passes
    is used up: the time-out lines and exit status 1. *)
Example run_pending_until_budget :
  let r := sample_response 900 300 in
  main 4 (sample_world r (fun _ => reply_pending)) =
  Some (shown r ++ opened (sample_world r (fun _ => reply_pending)) r ++
        [TokenRequest (device_code r); Log MsgPending; Sleep 300000;
         TokenRequest (device_code r); Log MsgPending; Sleep 300000;
         TokenRequest (device_code r); Log MsgPending; Sleep 300000;
         Log MsgTimedOut; Exit 1])%Z.
Proof. reflexivity. Qed.

(** An interval of 0 gives an unbounded budget: with
    [authorization_pending] answers no amount of fuel ends the loop. *)
Example run_interval_zero :
  floor_div 900 0 = PosInf /\
  main 50 (sample_world (sample_response 900 0) (fun _ => reply_pending)) = None.
Proof. split; reflexivity. Qed.

(** The rewrite of a store with blank lines and two earlier token lines. *)
Example save_sample :
  save (LF :: lit "GITHUB_OAUTH_TOKEN=a" ++ LF :: lit "X=1" ++ LF :: lit "  "
        ++ LF :: lit "GITHUB_OAUTH_TOKEN=b" ++ LF :: lit "Y=2" ++ [LF])
       (lit "gho_x")
  = lit "X=1" ++ LF :: lit "Y=2" ++ LF :: lit "GITHUB_OAUTH_TOKEN=gho_x".
Proof. reflexivity. Qed.

(** * The credential store (section 4.2 of the specification) *)

(** C4, as the script has it.  For every prior content of the store and
    token values without a line feed: the store written is the lines of the
    other keys, as they were and in their order, followed by the token's
    line; so the other keys' lines are neither duplicated nor reordered and
    each sits at the index it has among them (blank lines and earlier token
    lines before it are gone); and after a second save with a new token the
    store is what saving the new token alone gives, with the key in it
    once. *)
Theorem save_keeps_other_keys (raw t1 t2 : jsstring) :
  no_newline t1 -> no_newline t2 ->
  lines (save raw t1) = unrelated_lines raw ++ [token_line t1] /\
  unrelated_lines (save raw t1) = unrelated_lines raw /\
  (forall u, In u (unrelated_lines raw) ->
     index_of u (lines (save raw t1)) = index_of u (unrelated_lines raw)) /\
  save (save raw t1) t2 = save raw t2 /\
  token_key_count (save (save raw t1) t2) = 1%nat.
Proof.
  intros H1 H2. repeat split.
  - now apply lines_save_single.
  - now apply unrelated_lines_save.
  - intros u Hu. rewrite lines_save_single by assumption.
    now apply index_of_app_In.
  - now apply save_save.
  - now apply token_key_count_save.
Qed.

Lemma save_keeps_other_keys_witness :
  let raw := lit "FOO=bar" ++ LF :: lit "GITHUB_OAUTH_TOKEN=old" ++ LF :: lit "BAZ=1" in
  save (save raw (lit "gho_one")) (lit "gho_two") = save raw (lit "gho_two") /\
  lines (save raw (lit "gho_one")) =
    [lit "FOO=bar"; lit "BAZ=1"; lit "GITHUB_OAUTH_TOKEN=gho_one"].
Proof.
  intro raw.
  assert (H1 : no_newline (lit "gho_one")) by (repeat constructor).
  assert (H2 : no_newline (lit "gho_two")) by (repeat constructor).
  destruct (save_keeps_other_keys raw (lit "gho_one") (lit "gho_two") H1 H2)
    as (Hl & _ & _ & Hs & _).
  split; [exact Hs | rewrite Hl; reflexivity].
Defined.

(** C4 as the specification words it fails.  With a token line before it,
    the line of [FOO] moves from index 1 to index 0; and a first token of
    two lines leaves its second line [B=c] in the store when the second
    token is saved. *)
Lemma save_upsert_counterexample :
  let raw := lit "GITHUB_OAUTH_TOKEN=old" ++ LF :: lit "FOO=bar" in
  let t1 := lit "a" ++ LF :: lit "B=c" in
  let t2 := lit "new" in
  index_of (lit "FOO=bar") (lines raw) = Some 1%nat /\
  index_of (lit "FOO=bar") (lines (save raw t1)) = Some 0%nat /\
  lines (save (save raw t1) t2) =
    [lit "FOO=bar"; lit "B=c"; lit "GITHUB_OAUTH_TOKEN=new"] /\
  lines (save raw t2) = [lit "FOO=bar"; lit "GITHUB_OAUTH_TOKEN=new"] /\
  ~ upsert_as_specified raw t1 t2.
Proof.
  intros raw t1 t2. repeat split; try reflexivity.
  intros (_ & _ & H & _). vm_compute in H. discriminate H.
Qed.

(** C9.  After a save of a token value without a line feed, the token key
    occurs in the store exactly once, and its entry is the last line. *)
Theorem save_token_once_and_last (raw t : jsstring) :
  no_newline t ->
  token_key_count (save raw t) = 1%nat /\
  last (lines (save raw t)) [] = token_line t.
Proof.
  intros H. split.
  - now apply token_key_count_save.
  - rewrite lines_save_single by assumption. apply last_last.
Qed.

Lemma save_token_once_and_last_witness :
  let raw := lit "GITHUB_OAUTH_TOKEN=a" ++ LF :: lit "X=1" ++ LF :: lit "GITHUB_OAUTH_TOKEN=b" in
  token_key_count (save raw (lit "gho_new")) = 1%nat /\
  last (lines (save raw (lit "gho_new"))) [] = lit "GITHUB_OAUTH_TOKEN=gho_new".
Proof.
  intro raw. apply (save_token_once_and_last raw (lit "gho_new")).
  repeat constructor.
Defined.

(** The table of [is_white_space], code unit by code unit. *)
Lemma is_white_space_table (c : code_unit) :
  is_white_space c = true <-> In c white_space_code_units.
Proof.
unfold is_white_space, white_space_code_units. cbn [In].
rewrite !orb_true_iff, !andb_true_iff, !N.leb_le, !N.eqb_eq. lia.
Qed.

(** A line passes the filter for blank lines exactly when it has a code
    unit that [trim] does not strip. *)
Lemma not_blank_false_iff (l : jsstring) :
  not_blank l = false <-> whitespace_only l.
Proof.
unfold not_blank, whitespace_only. rewrite negb_false_iff.
assert (E : is_empty (trim l) = true <-> trim l = [])
  by (destruct (trim l); cbn; split; congruence).
rewrite E, trim_nil_iff, forallb_forall.
split; intros H c Hc; apply is_white_space_table; auto.
Qed.

(** C10 as the specification words it fails: with a token value that
    holds two line feeds in a row the text written has an empty line. *)
Lemma save_blank_line_counterexample :
  let t := lit "a" ++ LF :: LF :: lit "b" in
  lines (save (lit "FOO=bar") t) =
    [lit "FOO=bar"; lit "GITHUB_OAUTH_TOKEN=a"; []; lit "b"] /\
  In [] (lines (save (lit "FOO=bar") t)) /\
  whitespace_only [] /\ not_blank [] = false.
Proof.
intro t. split; [reflexivity|]. split; [cbn; tauto|].
split; [intros c []|reflexivity].
Qed.

(** C10, as the script has it.  For every prior content of the store and
    every token value, the lines written are the lines of the prior content
    that are neither empty or white-space-only nor the token's, followed by
    the token's entry: every empty and every white-space-only line of the
    prior content is dropped, wherever it is, and not only the line of the
    token replaced.  When the token value has no line feed the store
    written has no empty and no white-space-only line; a blank line in it
    can only come from inside the token value. *)
Theorem save_drops_blank_lines (raw t : jsstring) :
  save raw t = join_lines (unrelated_lines raw ++ [token_line t]) /\
  lines (save raw t) = unrelated_lines raw ++ lines (token_line t) /\
  (forall l, In l (unrelated_lines raw) ->
     In l (lines raw) /\ ~ whitespace_only l) /\
  (forall l, In l (lines raw) -> whitespace_only l ->
     ~ In l (unrelated_lines raw)) /\
  (no_newline t ->
   forall l, In l (lines (save raw t)) -> ~ whitespace_only l).
Proof.
assert (Hu : forall l, In l (unrelated_lines raw) ->
               In l (lines raw) /\ ~ whitespace_only l).
{ intros l Hl. apply filter_In in Hl. destruct Hl as [Hin Hl].
  split; [exact Hin|]. unfold unrelated in Hl.
  apply andb_true_iff in Hl. destruct Hl as [_ Hl].
  intros Hw. apply not_blank_false_iff in Hw. congruence. }
split; [apply save_join|]. split; [apply lines_save|]. split; [exact Hu|].
split.
- intros l _ Hw Hin. now apply (Hu l Hin).
- intros Hn l Hin. rewrite lines_save_single in Hin by assumption.
  apply in_app_or in Hin. destruct Hin as [Hin|[<-|[]]].
  + now apply Hu.
  + intros Hw. apply not_blank_false_iff in Hw.
    now rewrite not_blank_token_line in Hw.
Qed.

Lemma save_drops_blank_lines_witness :
  let raw := LF :: lit "A=1" ++ LF :: [9; 32; 13]%N ++ LF :: [160; 65279]%N
             ++ LF :: [8195; 12288; 8232]%N ++ LF :: LF :: lit "B=2" ++ [13; 10]%N in
  no_newline (lit "gho_x") /\
  lines (save raw (lit "gho_x")) =
    [lit "A=1"; lit "B=2" ++ [13%N]; lit "GITHUB_OAUTH_TOKEN=gho_x"] /\
  forall l, In l (lines (save raw (lit "gho_x"))) -> ~ whitespace_only l.
Proof.
intro raw.
assert (Hn : no_newline (lit "gho_x")) by (repeat constructor).
split; [exact Hn|]. split; [reflexivity|].
apply (save_drops_blank_lines raw (lit "gho_x")). exact Hn.
Defined.

(** * Lemmas on the poll loop *)

Section LoopLemmas.

Variables (dc : field) (i : Z) (m : jsnum) (reply : nat -> poll_reply).

Local Open Scope Z_scope.

Let loop := poll_loop dc i m reply.
Let once := poll_once dc reply.
Let cond := loop_cond m.

Lemma poll_once_goes_on (n : nat) :
  snd (once n) = None <-> continues (classify (reply n)) = true.
Proof.
  unfold once, poll_once.
  destruct (classify (reply n)); cbn; split; congruence.
Qed.

(** What [poll_times] sees of a pass that goes round: one request, then
    the regular sleep, and one second more after [slow_down]. *)
Lemma poll_times_pass (n : nat) (s : Z) (tr : trace) :
  continues (classify (reply n)) = true ->
  poll_times s (fst (once n) ++ Sleep (1000 * i) :: tr) =
  s :: poll_times
         (s + 1000 * i + (if is_slow_down (reply n) then 1000 else 0)) tr.
Proof.
  unfold once, poll_once, is_slow_down.
  destruct (classify (reply n)); cbn [continues]; try discriminate;
    intros _; cbn [fst app poll_times]; f_equal; f_equal; lia.
Qed.

Lemma count_polls_pass (n : nat) (tr : trace) :
  count_polls (fst (once n) ++ Sleep (1000 * i) :: tr) = S (count_polls tr).
Proof.
  unfold once, poll_once, count_polls.
  destruct (classify (reply n)); reflexivity.
Qed.

Lemma poll_times_length (tr : trace) (s : Z) :
  List.length (poll_times s tr) = count_polls tr.
Proof.
  revert s. induction tr as [|ev tr IH]; intros s; [reflexivity|].
  destruct ev; cbn; try apply IH. unfold count_polls in *. cbn.
  now rewrite IH.
Qed.

(** One unfolding of the loop. *)
Lemma poll_loop_S (f : nat) (x : Z) (n : nat) :
  loop (S f) x n =
  if cond x n then
    match once n with
    | (evs, Some e) => Some (evs, e)
    | (evs, None) =>
        match loop f (x - i) (S n) with
        | Some (tr, e) => Some (evs ++ Sleep (1000 * i) :: tr, e)
        | None => None
        end
    end
  else Some ([], Fallthrough).
Proof. reflexivity. Qed.

(** More fuel does not change a result. *)
Lemma poll_loop_mono (f f' : nat) (x : Z) (n : nat) (res : trace * loop_end) :
  loop f x n = Some res -> (f <= f')%nat -> loop f' x n = Some res.
Proof.
  revert f' x n res. induction f as [|f IH]; intros f' x n res H Hle.
  - discriminate.
  - destruct f' as [|f']; [lia|].
    rewrite poll_loop_S in *.
    destruct (cond x n); [|exact H].
    destruct (once n) as [evs [e|]]; [exact H|].
    destruct (loop f (x - i) (S n)) as [[tr e]|] eqn:E; [|discriminate].
    rewrite (IH f' _ _ _ E) by lia. exact H.
Qed.

(** With a finite budget the loop ends within the budget. *)
Lemma poll_loop_terminates (z : Z) (f : nat) (x : Z) (n : nat) :
  m = Fin z -> (Z.to_nat (z - Z.of_nat n) < f)%nat ->
  exists res, loop f x n = Some res.
Proof.
  intros Hm. revert x n. induction f as [|f IH]; intros x n Hf; [lia|].
  rewrite poll_loop_S.
  destruct (cond x n) eqn:Hc; [|eauto].
  destruct (once n) as [evs [e|]]; [eauto|].
  unfold cond, loop_cond in Hc. rewrite Hm in Hc. cbn in Hc.
  apply andb_true_iff in Hc. destruct Hc as [_ Hc]. apply Z.ltb_lt in Hc.
  destruct (IH (x - i) (S n)) as [[tr e] E]; [lia|].
  rewrite E. eauto.
Qed.

(** Without a budget the loop ends at once. *)
Lemma poll_loop_no_budget (f : nat) (x : Z) (n : nat) :
  m = NaN \/ m = NegInf -> loop (S f) x n = Some ([], Fallthrough).
Proof.
  intros Hm. rewrite poll_loop_S. unfold cond, loop_cond.
  destruct Hm as [-> | ->]; cbn; now rewrite andb_false_r.
Qed.

(** When the script issues its requests: request [k] of a run from pass
    [n] is issued in pass [n + k], with the condition of the loop true
    there, after [k] regular sleeps and one second for each [slow_down]
    since pass [n]. *)
Lemma poll_loop_times (f : nat) :
  forall (x : Z) (n : nat) (tr : trace) (e : loop_end) (s : Z),
  loop f x n = Some (tr, e) ->
  forall (k : nat) (t : Z),
  nth_error (poll_times s tr) k = Some t ->
  t = s + 1000 * (Z.of_nat k * i
                  + (slow_downs reply (n + k) - slow_downs reply n)) /\
  cond (x - Z.of_nat k * i) (n + k)%nat = true.
Proof.
  induction f as [|f IH]; intros x n tr e s H k t Hk; [discriminate|].
  rewrite poll_loop_S in H.
  destruct (cond x n) eqn:Hc.
  2:{ injection H as <- _. now destruct k. }
  assert (H0 : forall t0, t0 = s ->
    t0 = s + 1000 * (Z.of_nat 0 * i
                     + (slow_downs reply (n + 0) - slow_downs reply n)) /\
    cond (x - Z.of_nat 0 * i) (n + 0)%nat = true).
  { intros t0 ->. rewrite Nat.add_0_r. split; [lia|].
    now replace (x - Z.of_nat 0 * i) with x by lia. }
  destruct (once n) as [evs [e'|]] eqn:Eo.
  - (* the pass leaves the loop: its request is the only one *)
    injection H as <- <-.
    assert (Ht : poll_times s evs = [s]).
    { unfold once, poll_once in Eo.
      destruct (classify (reply n)); injection Eo as <- ?;
        try discriminate; reflexivity. }
    rewrite Ht in Hk. destruct k as [|[|k]]; try discriminate.
    injection Hk as <-. now apply H0.
  - destruct (loop f (x - i) (S n)) as [[tr' e']|] eqn:El; [|discriminate].
    injection H as <- <-.
    assert (Hg : continues (classify (reply n)) = true).
    { apply poll_once_goes_on. now rewrite Eo. }
    replace evs with (fst (once n)) in Hk by now rewrite Eo.
    rewrite poll_times_pass in Hk by assumption.
    destruct k as [|k]; [injection Hk as <-; now apply H0|].
    cbn [nth_error] in Hk.
    destruct (IH _ _ _ _ _ El _ _ Hk) as [-> Hc'].
    replace (n + S k)%nat with (S n + k)%nat by lia.
    split.
    + cbn [slow_downs]. destruct (is_slow_down (reply n)); lia.
    + now replace (x - Z.of_nat (S k) * i) with (x - i - Z.of_nat k * i) by lia.
Qed.

(** The loop makes at most as many requests as the budget has left. *)
Lemma poll_loop_count (z : Z) (f : nat) (x : Z) (n : nat) (tr : trace) (e : loop_end) :
  m = Fin z -> loop f x n = Some (tr, e) ->
  Z.of_nat (count_polls tr) <= Z.max 0 (z - Z.of_nat n).
Proof.
  intros Hm H.
  destruct (count_polls tr) as [|c] eqn:Ec; [lia|].
  rewrite <- (poll_times_length tr 0) in Ec.
  destruct (nth_error (poll_times 0 tr) c) as [t|] eqn:Et.
  - destruct (poll_loop_times _ _ _ _ _ _ H _ _ Et) as [_ Hc].
    unfold cond, loop_cond in Hc. rewrite Hm in Hc. cbn in Hc.
    apply andb_true_iff in Hc. destruct Hc as [_ Hc]. apply Z.ltb_lt in Hc.
    lia.
  - apply nth_error_None in Et. lia.
Qed.

(** The sleeps of a run are the regular one and the extra second. *)
Lemma poll_loop_sleeps (f : nat) :
  forall (x : Z) (n : nat) (tr : trace) (e : loop_end),
  loop f x n = Some (tr, e) ->
  forall ms, In (Sleep ms) tr -> ms = 1000 * i \/ ms = 1000.
Proof.
  induction f as [|f IH]; intros x n tr e H ms Hin; [discriminate|].
  rewrite poll_loop_S in H.
  destruct (cond x n); [|injection H as <- _; contradiction].
  assert (Ho : forall evs oe, once n = (evs, oe) -> In (Sleep ms) evs -> ms = 1000).
  { unfold once, poll_once. intros evs oe Eo Hi.
    destruct (classify (reply n)); injection Eo as <- _;
      cbn [In] in Hi;
      repeat (destruct Hi as [Hi|Hi];
              [try discriminate Hi; try (injection Hi as <-; reflexivity)|]);
      try contradiction. }
  destruct (once n) as [evs [e'|]] eqn:Eo.
  - injection H as <- _. right. eapply Ho; eauto.
  - destruct (loop f (x - i) (S n)) as [[tr' e']|] eqn:El; [|discriminate].
    injection H as <- _. apply in_app_or in Hin.
    destruct Hin as [Hin|[Hin|Hin]].
    + right. eapply Ho; eauto.
    + left. injection Hin as <-. reflexivity.
    + eapply IH; eauto.
Qed.

(** The first [k] passes go round when their outcomes go on and the
    condition holds at each of them. *)
Lemma poll_loop_passes (k : nat) :
  forall (f : nat) (x : Z) (n : nat),
  (forall j, (j < k)%nat ->
     continues (classify (reply (n + j))) = true /\
     cond (x - Z.of_nat j * i) (n + j)%nat = true) ->
  loop (k + f) x n =
  match loop f (x - Z.of_nat k * i) (n + k)%nat with
  | Some (tr, e) => Some (passes dc i reply n k ++ tr, e)
  | None => None
  end.
Proof.
  induction k as [|k IH]; intros f x n H.
  - cbn [passes Nat.add app]. rewrite Nat.add_0_r.
    replace (x - Z.of_nat 0 * i) with x by lia.
    now destruct (loop f x n) as [[tr e]|].
  - change (S k + f)%nat with (S (k + f)). rewrite poll_loop_S.
    destruct (H 0%nat ltac:(lia)) as [Hg Hc].
    rewrite Nat.add_0_r in Hg, Hc.
    replace (x - Z.of_nat 0 * i) with x in Hc by lia. rewrite Hc.
    apply poll_once_goes_on in Hg.
    destruct (once n) as [evs oe] eqn:Eo. cbn in Hg. subst oe.
    rewrite IH.
    + replace (x - i - Z.of_nat k * i) with (x - Z.of_nat (S k) * i) by lia.
      replace (S n + k)%nat with (n + S k)%nat by lia.
      destruct (loop f _ _) as [[tr e]|]; [|reflexivity].
      cbn [passes]. fold once. rewrite Eo. cbn [fst].
      now rewrite <- app_assoc.
    + intros j Hj. destruct (H (S j) ltac:(lia)) as [Hg' Hc'].
      replace (S n + j)%nat with (n + S j)%nat by lia.
      split; [exact Hg'|].
      now replace (x - i - Z.of_nat j * i) with (x - Z.of_nat (S j) * i) by lia.
Qed.

Lemma count_polls_app (a b : trace) :
  count_polls (a ++ b) = (count_polls a + count_polls b)%nat.
Proof. unfold count_polls. now rewrite filter_app, length_app. Qed.

Lemma count_polls_passes (n k : nat) : count_polls (passes dc i reply n k) = k.
Proof.
  revert n. induction k as [|k IH]; intros n; [reflexivity|].
  cbn [passes]. fold once. rewrite count_polls_pass. now rewrite IH.
Qed.

End LoopLemmas.

(** ** The flow as a whole *)

Section FlowLemmas.

Local Open Scope Z_scope.

(** The script as it runs once the response is accepted and a key other
    than Ctrl+C is pressed. *)
Lemma main_polling (fuel : nat) (w : world) (r : response1) :
  reaches_polling w r ->
  main fuel w =
  match poll fuel r (replies w) with
  | None => None
  | Some (tr, e) => Some (shown r ++ opened w r ++ tr ++ after_poll w e)
  end.
Proof.
  intros (Ht & Hr & Hv & Hk). unfold main.
  now rewrite Ht, Hr, Hv, Hk.
Qed.

Lemma poll_fields (fuel : nat) (r : response1) (e i : Z) (reply : nat -> poll_reply) :
  expires_in r = Some e -> interval r = Some i ->
  poll fuel r reply =
  poll_loop (device_code r) i (floor_div e i) reply fuel e 0.
Proof. intros He Hi. unfold poll. now rewrite He, Hi. Qed.

Lemma floor_div_pos (e i : Z) : i <> 0 -> floor_div e i = Fin (e / i).
Proof.
  intros H. unfold floor_div. apply Z.eqb_neq in H. now rewrite H.
Qed.

Lemma enters_cond (e i : Z) (k : nat) :
  enters e i k = loop_cond (floor_div e i) (e - Z.of_nat k * i) k.
Proof. reflexivity. Qed.

(** A pass that is entered has all the passes before it entered. *)
Lemma enters_earlier (e i : Z) (k j : nat) :
  enters e i k = true -> (j <= k)%nat -> enters e i j = true.
Proof.
  unfold enters, floor_div. intros H Hj.
  apply andb_true_iff in H. destruct H as [H1 H2]. apply Z.ltb_lt in H1.
  apply andb_true_iff.
  destruct (i =? 0) eqn:Ei.
  - apply Z.eqb_eq in Ei. subst i. split; [apply Z.ltb_lt; lia|].
    destruct (0 <? e) eqn:E0; [reflexivity|].
    apply Z.ltb_ge in E0. lia.
  - apply Z.eqb_neq in Ei. cbn [lt_num] in *. apply Z.ltb_lt in H2.
    rewrite !Z.ltb_lt.
    destruct (Z.lt_total i 0) as [Hneg|[?|Hpos]]; [|contradiction|].
    + pose proof (Z.mul_div_ge e i Hneg). nia.
    + nia.
Qed.

Lemma count_polls_prologue (w : world) (r : response1) :
  count_polls (shown r ++ opened w r) = 0%nat.
Proof. reflexivity. Qed.

Lemma classify_json_not_transient (t : tokenResponse) :
  classify (PollJson t) <> TransientError.
Proof.
  unfold classify, error_outcome.
  destruct (access_token t) as [tok|]; [destruct (is_empty tok)|];
    repeat match goal with
           | |- context [if ?b then _ else _] => destruct b
           end; discriminate.
Qed.

Lemma actions_app (a b : trace) : actions (a ++ b) = actions a ++ actions b.
Proof. apply filter_app. Qed.

(** A network error and [authorization_pending] do the same to a pass,
    up to the line printed. *)
Lemma poll_once_error_as_pending (dc : field) (reply : nat -> poll_reply) (n : nat) :
  actions (fst (poll_once dc reply n)) =
    actions (fst (poll_once dc (errors_as_pending reply) n)) /\
  snd (poll_once dc reply n) = snd (poll_once dc (errors_as_pending reply) n).
Proof.
  unfold poll_once, errors_as_pending.
  destruct (reply n) as [|t]; [split; reflexivity|].
  destruct (classify (PollJson t)); split; reflexivity.
Qed.

Lemma poll_loop_errors_as_pending
    (dc : field) (i : Z) (m : jsnum) (reply : nat -> poll_reply) (f : nat) :
  forall (x : Z) (n : nat),
  option_map acts (poll_loop dc i m reply f x n) =
  option_map acts (poll_loop dc i m (errors_as_pending reply) f x n).
Proof.
  induction f as [|f IH]; intros x n; [reflexivity|].
  rewrite !poll_loop_S.
  destruct (loop_cond m x n); [|reflexivity].
  destruct (poll_once_error_as_pending dc reply n) as [Ha Hs].
  destruct (poll_once dc reply n) as [evs oe].
  destruct (poll_once dc (errors_as_pending reply) n) as [evs' oe'].
  cbn [fst snd] in Ha, Hs. subst oe'.
  destruct oe as [e|];
    [cbn [option_map]; unfold acts; cbn [fst snd]; now rewrite Ha|].
  specialize (IH (x - i) (S n)).
  destruct (poll_loop dc i m reply f (x - i) (S n)) as [[tr e]|];
    destruct (poll_loop dc i m (errors_as_pending reply) f (x - i) (S n))
      as [[tr' e']|]; try discriminate; [|reflexivity].
  cbn in IH. unfold acts in IH. cbn [fst snd] in IH.
  injection IH as IH1 IH2. subst e'.
  cbn [option_map]. unfold acts. cbn [fst snd].
  rewrite !actions_app. change (Sleep (1000 * i) :: tr)
    with ([Sleep (1000 * i)] ++ tr).
  change (Sleep (1000 * i) :: tr') with ([Sleep (1000 * i)] ++ tr').
  rewrite !actions_app. now rewrite Ha, IH1.
Qed.

End FlowLemmas.

(** * The device-code request (section 4.1, [requestDeviceCode]) *)

(** C1 as the specification words it fails: a response without a
    verification URI is accepted, and the script goes on to poll. *)
Lemma device_code_check_counterexample :
  let r := response_without_uri in
  let w := sample_world r (fun _ => reply_granted (lit "gho_x")) in
  has_all_fields r = false /\
  invalid_response r = false /\
  exists tr, main 1 w = Some tr /\
             count_polls tr = 1%nat /\
             In (TokenRequest (device_code r)) tr.
Proof.
  intros r w. split; [reflexivity|]. split; [reflexivity|].
  eexists. split; [reflexivity|]. split; [reflexivity|].
  cbn. tauto.
Qed.

(** C1, as the script has it.  The response is accepted exactly when its
    user code and its device code are there and not empty; when one of them
    is missing or empty the script prints the invalid-response line and
    exits with status 1 without a token request; and a run that issues a
    token request had both.  The verification URI, the expiry and the
    interval are not looked at. *)
Theorem device_code_check (w : world) (r : response1) (fuel : nat) :
  (invalid_response r = false <->
     truthy (user_code r) = true /\ truthy (device_code r) = true) /\
  (isTTY w = true -> request1 w = Fetch1Json r ->
   truthy (user_code r) = false \/ truthy (device_code r) = false ->
   main fuel w =
     Some [Log MsgBanner; DeviceCodeRequest; Log MsgInvalidResponse; Exit 1]) /\
  (forall tr, isTTY w = true -> request1 w = Fetch1Json r ->
   main fuel w = Some tr -> (0 < count_polls tr)%nat ->
   truthy (user_code r) = true /\ truthy (device_code r) = true).
Proof.
  assert (Hiff : invalid_response r = false <->
            truthy (user_code r) = true /\ truthy (device_code r) = true).
  { unfold invalid_response.
    destruct (truthy (user_code r)), (truthy (device_code r)); cbn;
      intuition congruence. }
  split; [exact Hiff|]. split.
  - intros Ht Hr Hm. unfold main. rewrite Ht, Hr. cbn [negb].
    destruct (bool_dec (invalid_response r) true) as [E|E];
      [now rewrite E|].
    apply not_true_is_false, Hiff in E. destruct E as [E1 E2].
    destruct Hm; congruence.
  - intros tr Ht Hr Hm Hc. apply Hiff.
    unfold main in Hm. rewrite Ht, Hr in Hm. cbn [negb] in Hm.
    destruct (bool_dec (invalid_response r) true) as [E|E];
      [|now apply not_true_is_false].
    rewrite E in Hm. injection Hm as <-. cbn in Hc. lia.
Qed.

Lemma device_code_check_witness :
  let r := {| user_code := None; device_code := Some (lit "3584d8");
              verification_uri := Some (lit "https://github.com/login/device");
              expires_in := Some 900%Z; interval := Some 5%Z |} in
  let w := sample_world r (fun _ => reply_pending) in
  isTTY w = true /\ request1 w = Fetch1Json r /\
  truthy (user_code r) = false /\
  main 10 w =
    Some [Log MsgBanner; DeviceCodeRequest; Log MsgInvalidResponse; Exit 1%Z].
Proof.
  intros r w.
  split; [reflexivity|]. split; [reflexivity|]. split; [reflexivity|].
  apply (device_code_check w r 10); [reflexivity | reflexivity | left; reflexivity].
Defined.

(** * The poll loop (section 4.1, [pollForToken]) *)

(** C2 as the specification words it fails: after [SlowDown, Pending,
    Granted], with an interval of 5 s, the script sleeps 1 s and 5 s before
    the second request and 5 s, the initial interval and no more, before
    the third. *)
Lemma slow_down_counterexample :
  let r := sample_response 900 5 in
  let reply := script [reply_slow_down; reply_pending; reply_granted (lit "gho_x")]
                 reply_pending in
  exists tr,
    poll 3 r reply = Some (tr, Break (lit "gho_x")) /\
    tr = [TokenRequest (device_code r); Log MsgSlowDown; Sleep 1000; Sleep 5000;
          TokenRequest (device_code r); Log MsgPending; Sleep 5000;
          TokenRequest (device_code r); Log MsgAuthorized] /\
    poll_times 0 tr = [0; 6000; 11000]%Z /\
    ~ (1000 * 5 < 11000 - 6000)%Z.
Proof.
  intros r reply. eexists. split; [reflexivity|].
  split; [reflexivity|]. split; [reflexivity|]. lia.
Qed.

(** C2, as the script has it.  The interval is never changed: every sleep
    of a run is the regular one of [1000 * interval] ms or the extra second
    that follows a [slow_down]; from one request to the next the script
    sleeps the regular time, and one second more exactly when the earlier
    of the two was answered [slow_down].  For [SlowDown, Pending, Granted]
    that is one second more than the interval before the second request
    and the interval itself before the third. *)
Theorem slow_down_sleeps_once (r : response1) (e i : Z) :
  expires_in r = Some e -> interval r = Some i ->
  (forall fuel reply tr end_,
     poll fuel r reply = Some (tr, end_) ->
     (forall ms, In (Sleep ms) tr -> ms = 1000 * i \/ ms = 1000)%Z /\
     (forall k t t',
        nth_error (poll_times 0 tr) k = Some t ->
        nth_error (poll_times 0 tr) (S k) = Some t' ->
        t' - t = 1000 * i + (if is_slow_down (reply k) then 1000 else 0))%Z) /\
  (forall fuel tok rest,
     enters e i 2 = true -> tok <> [] -> (3 <= fuel)%nat ->
     poll fuel r (script [reply_slow_down; reply_pending; reply_granted tok] rest) =
     Some ([TokenRequest (device_code r); Log MsgSlowDown;
            Sleep 1000; Sleep (1000 * i);
            TokenRequest (device_code r); Log MsgPending; Sleep (1000 * i);
            TokenRequest (device_code r); Log MsgAuthorized],
           Break tok)).
Proof.
  intros He Hi. split.
  - intros fuel reply tr end_ H. rewrite (poll_fields _ _ _ _ _ He Hi) in H.
    split.
    + eapply poll_loop_sleeps; eauto.
    + intros k t t' Hk Hk'.
      destruct (poll_loop_times _ _ _ _ _ _ _ _ _ _ H _ _ Hk) as [-> _].
      destruct (poll_loop_times _ _ _ _ _ _ _ _ _ _ H _ _ Hk') as [-> _].
      cbn [Nat.add slow_downs]. destruct (is_slow_down (reply k)); lia.
  - intros fuel tok rest H2 Htok Hfuel.
    rewrite (poll_fields _ _ _ _ _ He Hi).
    apply poll_loop_mono with (f := 3%nat); [|exact Hfuel].
    pose proof (enters_earlier _ _ _ 0 H2 ltac:(lia)) as H0.
    pose proof (enters_earlier _ _ _ 1 H2 ltac:(lia)) as H1.
    rewrite enters_cond in H0, H1, H2.
    replace (e - Z.of_nat 0 * i)%Z with e in H0 by lia.
    replace (e - Z.of_nat 1 * i)%Z with (e - i)%Z in H1 by lia.
    replace (e - Z.of_nat 2 * i)%Z with (e - i - i)%Z in H2 by lia.
    rewrite poll_loop_S, H0.
    change (poll_once (device_code r) (script [reply_slow_down; reply_pending; reply_granted tok] rest) 0)
      with ([TokenRequest (device_code r); Log MsgSlowDown; Sleep 1000],
            @None loop_end).
    rewrite poll_loop_S, H1.
    change (poll_once (device_code r) (script [reply_slow_down; reply_pending; reply_granted tok] rest) 1)
      with ([TokenRequest (device_code r); Log MsgPending], @None loop_end).
    rewrite poll_loop_S, H2.
    assert (Hg : poll_once (device_code r)
                   (script [reply_slow_down; reply_pending; reply_granted tok] rest) 2
                 = ([TokenRequest (device_code r); Log MsgAuthorized], Some (Break tok))).
    { destruct tok; [contradiction|reflexivity]. }
    rewrite Hg. reflexivity.
Qed.

Lemma slow_down_sleeps_once_witness :
  let r := sample_response 900 5 in
  enters 900 5 2 = true /\ lit "gho_x" <> [] /\ (3 <= 3)%nat /\
  poll 3 r (script [reply_slow_down; reply_pending; reply_granted (lit "gho_x")]
              reply_pending) =
  Some ([TokenRequest (device_code r); Log MsgSlowDown;
         Sleep 1000; Sleep (1000 * 5);
         TokenRequest (device_code r); Log MsgPending; Sleep (1000 * 5);
         TokenRequest (device_code r); Log MsgAuthorized],
        Break (lit "gho_x")).
Proof.
  intros r.
  split; [reflexivity|]. split; [discriminate|]. split; [lia|].
  apply (proj2 (slow_down_sleeps_once r 900 5 eq_refl eq_refl));
    [reflexivity | discriminate | lia].
Defined.

(** C3 as the specification words it fails: with an expiry of 3 s, an
    interval of 1 s and [slow_down] answers, the third request is issued
    after the script has slept 4 s in its own timers, later than the
    3 s of the expiry. *)
Lemma deadline_counterexample :
  let r := sample_response 3 1 in
  exists tr end_,
    poll 4 r (fun _ => reply_slow_down) = Some (tr, end_) /\
    poll_times 0 tr = [0; 2000; 4000]%Z /\
    exists t, In t (poll_times 0 tr) /\ (1000 * 3 < t)%Z.
Proof.
  intros r. eexists. eexists. split; [reflexivity|].
  split; [reflexivity|]. exists 4000%Z. split; [cbn; tauto | lia].
Qed.

(** C3, as the script has it.  For an expiry [e >= 0] and an interval
    [i >= 1] the loop ends and issues at most [floor(e / i)] token
    requests, which is at most [ceil(e / i) + 1].  The script has no clock:
    request [k] (from 0) is issued while the countdown [e - k * i] is
    positive, after [k] sleeps of the interval and one further second for
    each [slow_down] among the answers before it; so without [slow_down]
    answers every request is issued with less than [e] seconds slept. *)
Theorem poll_budget (r : response1) (e i : Z) (reply : nat -> poll_reply) (fuel : nat) :
  expires_in r = Some e -> interval r = Some i ->
  (0 <= e)%Z -> (1 <= i)%Z -> (Z.to_nat (e / i) < fuel)%nat ->
  exists tr end_,
    poll fuel r reply = Some (tr, end_) /\
    (Z.of_nat (count_polls tr) <= e / i)%Z /\
    (Z.of_nat (count_polls tr) <= ceil_div e i + 1)%Z /\
    (forall k t, nth_error (poll_times 0 tr) k = Some t ->
       Z.of_nat k * i < e /\
       t = 1000 * (Z.of_nat k * i + slow_downs reply k))%Z /\
    ((forall k, is_slow_down (reply k) = false) ->
     Forall (fun t => t < 1000 * e)%Z (poll_times 0 tr)).
Proof.
  intros He Hi He0 Hi1 Hfuel.
  rewrite (poll_fields _ _ _ _ _ He Hi).
  assert (Hm : floor_div e i = Fin (e / i)) by (apply floor_div_pos; lia).
  destruct (poll_loop_terminates (device_code r) i _ reply (e / i) fuel e 0 Hm)
    as [[tr end_] H]; [now rewrite Z.sub_0_r|].
  assert (Hq : (0 <= e / i)%Z) by (apply Z.div_pos; lia).
  assert (Hc : (Z.of_nat (count_polls tr) <= e / i)%Z).
  { pose proof (poll_loop_count _ _ _ _ _ _ _ _ _ _ Hm H). lia. }
  assert (Ht : forall k t, nth_error (poll_times 0 tr) k = Some t ->
             (Z.of_nat k * i < e /\
              t = 1000 * (Z.of_nat k * i + slow_downs reply k))%Z).
  { intros k t Hk.
    destruct (poll_loop_times _ _ _ _ _ _ _ _ _ _ H _ _ Hk) as [-> Hcond].
    unfold loop_cond in Hcond. apply andb_true_iff in Hcond.
    destruct Hcond as [Hcond _]. apply Z.ltb_lt in Hcond.
    cbn [Nat.add slow_downs]. split; lia. }
  exists tr, end_.
  split; [exact H|]. split; [exact Hc|]. split; [|split; [exact Ht|]].
  - unfold ceil_div.
    pose proof (Z.div_mod e i ltac:(lia)).
    pose proof (Z.mod_pos_bound e i ltac:(lia)).
    pose proof (Z.div_mod (- e) i ltac:(lia)).
    pose proof (Z.mod_pos_bound (- e) i ltac:(lia)).
    nia.
  - intros Hns. apply Forall_forall. intros t Hin.
    apply In_nth_error in Hin. destruct Hin as [k Hk].
    destruct (Ht _ _ Hk) as [Hlt ->].
    assert (Hz : slow_downs reply k = 0%Z).
    { clear - Hns. induction k as [|k IH]; [reflexivity|].
      cbn [slow_downs]. rewrite IH, Hns. reflexivity. }
    rewrite Hz. lia.
Qed.

Lemma poll_budget_witness :
  let r := sample_response 900 5 in
  (0 <= 900)%Z /\ (1 <= 5)%Z /\ (Z.to_nat (900 / 5) < 181)%nat /\
  exists tr end_,
    poll 181 r (fun _ => reply_pending) = Some (tr, end_) /\
    (Z.of_nat (count_polls tr) <= 900 / 5)%Z.
Proof.
  intros r.
  split; [lia|]. split; [lia|]. split; [vm_compute; lia|].
  destruct (poll_budget r 900 5 (fun _ => reply_pending) 181 eq_refl eq_refl)
    as (tr & end_ & H & Hc & _); [lia | lia | vm_compute; lia |].
  exists tr, end_. split; assumption.
Defined.

(** C5.  When the body of the answer to a token request has no token and
    its [error] is ['access_denied'], the script prints the denial line and
    exits with status 1 right after that request; when its [error] is
    ['expired_token'], it prints the expiry line and exits with status 1
    right after it.  Request [k] is reached when the answers before it let
    the loop go on and pass [k] is entered; the run then ends within
    [k + 1] passes and has issued [k + 1] requests, the last of them the one
    so answered. *)
Theorem denied_or_expired_stops
    (w : world) (r : response1) (e i : Z) (k fuel : nat) (t : tokenResponse) :
  reaches_polling w r ->
  expires_in r = Some e -> interval r = Some i ->
  (forall j, (j < k)%nat -> continues (classify (replies w j)) = true) ->
  enters e i k = true ->
  (k < fuel)%nat ->
  replies w k = PollJson t ->
  truthy (access_token t) = false ->
  (error t = Some (lit "access_denied") ->
   exists pre,
     main fuel w =
       Some (pre ++ [TokenRequest (device_code r); Log MsgDenied; Exit 1]) /\
     count_polls pre = k) /\
  (error t = Some (lit "expired_token") ->
   exists pre,
     main fuel w =
       Some (pre ++ [TokenRequest (device_code r); Log MsgExpired; Exit 1]) /\
     count_polls pre = k).
Proof.
intros Hw He Hi Hgo Hk Hfuel Hr Htok.
assert (Hloop : forall msg,
  poll_once (device_code r) (replies w) k =
    ([TokenRequest (device_code r); Log msg; Exit 1], Some Exited) ->
  exists pre,
    main fuel w =
      Some (pre ++ [TokenRequest (device_code r); Log msg; Exit 1]) /\
    count_polls pre = k).
{ intros msg Ho.
  exists (shown r ++ opened w r ++ passes (device_code r) i (replies w) 0 k).
  split.
  - rewrite (main_polling _ _ _ Hw), (poll_fields _ _ _ _ _ He Hi).
    replace fuel with (k + S (fuel - S k))%nat by lia.
    rewrite poll_loop_passes.
    + rewrite poll_loop_S. cbn [Nat.add].
      rewrite <- enters_cond, Hk, Ho. cbn [after_poll].
      now rewrite app_nil_r, <- !app_assoc.
    + intros j Hj. cbn [Nat.add]. split; [now apply Hgo|].
      rewrite <- enters_cond. apply enters_earlier with (k := k); [exact Hk|lia].
  - rewrite app_assoc, count_polls_app, count_polls_prologue.
    apply count_polls_passes. }
assert (Hc : classify (replies w k) = error_outcome (error t)).
{ rewrite Hr. cbn [classify]. unfold truthy in Htok.
  destruct (access_token t) as [tok|]; [|reflexivity].
  apply negb_false_iff in Htok. now rewrite Htok. }
split; intros Herr; apply Hloop; unfold poll_once; rewrite Hc, Herr; reflexivity.
Qed.

Lemma denied_or_expired_stops_witness :
  let r := sample_response 900 5 in
  let wd := sample_world r (script [reply_pending; reply_denied] reply_pending) in
  let wx := sample_world r
              (script [reply_slow_down; reply_pending; reply_expired] reply_pending) in
  (reaches_polling wd r /\ enters 900 5 1 = true /\
   exists pre,
     main 2 wd =
       Some (pre ++ [TokenRequest (device_code r); Log MsgDenied; Exit 1%Z]) /\
     count_polls pre = 1%nat) /\
  (reaches_polling wx r /\ enters 900 5 2 = true /\
   exists pre,
     main 3 wx =
       Some (pre ++ [TokenRequest (device_code r); Log MsgExpired; Exit 1%Z]) /\
     count_polls pre = 2%nat).
Proof.
intros r wd wx.
assert (Hd : reaches_polling wd r) by (repeat split).
assert (Hx : reaches_polling wx r) by (repeat split).
split.
- split; [exact Hd|]. split; [reflexivity|].
  apply (proj1 (denied_or_expired_stops wd r 900 5 1 2
                  {| access_token := None; error := Some (lit "access_denied") |}
                  Hd eq_refl eq_refl
                  ltac:(intros [|j] Hj; [reflexivity | lia])
                  eq_refl ltac:(lia) eq_refl eq_refl)).
  reflexivity.
- split; [exact Hx|]. split; [reflexivity|].
  apply (proj2 (denied_or_expired_stops wx r 900 5 2 3
                  {| access_token := None; error := Some (lit "expired_token") |}
                  Hx eq_refl eq_refl
                  ltac:(intros [|[|j]] Hj; [reflexivity | reflexivity | lia])
                  eq_refl ltac:(lia) eq_refl eq_refl)).
  reflexivity.
Defined.

(** C8.  When the interval is greater than the expiry, the attempt budget
    [Math.floor(expiresIn / interval)] is 0: the body of the loop never
    runs, no token request is issued, and the script prints the time-out
    lines and exits with status 1. *)
Theorem interval_above_expiry_times_out
    (w : world) (r : response1) (e i : Z) (fuel : nat) :
  reaches_polling w r ->
  expires_in r = Some e -> interval r = Some i ->
  (0 <= e < i)%Z -> (0 < fuel)%nat ->
  floor_div e i = Fin 0 /\
  poll fuel r (replies w) = Some ([], Fallthrough) /\
  main fuel w = Some (shown r ++ opened w r ++ [Log MsgTimedOut; Exit 1]) /\
  count_polls (shown r ++ opened w r ++ [Log MsgTimedOut; Exit 1]) = 0%nat.
Proof.
  intros Hw He Hi Hlt Hfuel.
  assert (Hm : floor_div e i = Fin 0).
  { rewrite floor_div_pos by lia. f_equal. apply Z.div_small. lia. }
  assert (Hp : poll fuel r (replies w) = Some ([], Fallthrough)).
  { rewrite (poll_fields _ _ _ _ _ He Hi), Hm.
    destruct fuel as [|fuel]; [lia|].
    rewrite poll_loop_S. unfold loop_cond. cbn [lt_num Z.of_nat].
    now rewrite andb_false_r. }
  split; [exact Hm|]. split; [exact Hp|]. split; [|reflexivity].
  rewrite (main_polling _ _ _ Hw), Hp. reflexivity.
Qed.

Lemma interval_above_expiry_times_out_witness :
  let r := sample_response 5 10 in
  let w := sample_world r (fun _ => reply_granted (lit "gho_x")) in
  reaches_polling w r /\ (0 <= 5 < 10)%Z /\ (0 < 1)%nat /\
  main 1 w = Some (shown r ++ opened w r ++ [Log MsgTimedOut; Exit 1%Z]).
Proof.
  intros r w.
  assert (Hw : reaches_polling w r) by (repeat split).
  split; [exact Hw|]. split; [lia|]. split; [lia|].
  apply (interval_above_expiry_times_out w r 5 10 1 Hw eq_refl eq_refl); lia.
Defined.

(** * Persistence failures (sections 4.2 and 7) *)

(** C6.  When the loop has obtained a token and the rewrite of [.env]
    throws, the script catches the error: it prints that saving failed,
    then the line [GITHUB_OAUTH_TOKEN=<token>] with the raw token for the
    user to add by hand, and exits with status 1.  The run ends with these
    lines, so the token obtained is printed whenever it is not stored. *)
Theorem persist_failure_prints_token
    (w : world) (r : response1) (fuel : nat) (tr : trace) (tok : jsstring) :
  reaches_polling w r ->
  poll fuel r (replies w) = Some (tr, Break tok) ->
  persist_fails w = true ->
  store_token w tok =
    [Log MsgSaveFailed; Log MsgManualHint;
     Log (MsgLine (TOKEN_KEY ++ tok)); Exit 1] /\
  main fuel w =
    Some ((shown r ++ opened w r ++ tr ++ [Log MsgSaving]) ++
          [Log MsgSaveFailed; Log MsgManualHint;
           Log (MsgLine (TOKEN_KEY ++ tok)); Exit 1]) /\
  (forall out, main fuel w = Some out ->
     In (Log MsgSaveFailed) out /\ In (Log (MsgLine (TOKEN_KEY ++ tok))) out).
Proof.
  intros Hw Hp Hf.
  assert (Hs : store_token w tok =
    [Log MsgSaveFailed; Log MsgManualHint;
     Log (MsgLine (TOKEN_KEY ++ tok)); Exit 1]).
  { unfold store_token, persist_fails in *.
    destruct (env_file w); [destruct (read_throws w); [reflexivity|]|];
      cbn [orb] in Hf; now rewrite Hf. }
  assert (Hm : main fuel w =
    Some ((shown r ++ opened w r ++ tr ++ [Log MsgSaving]) ++
          [Log MsgSaveFailed; Log MsgManualHint;
           Log (MsgLine (TOKEN_KEY ++ tok)); Exit 1])).
  { rewrite (main_polling _ _ _ Hw), Hp. cbn [after_poll]. rewrite Hs.
    f_equal. rewrite <- !app_assoc. reflexivity. }
  split; [exact Hs|]. split; [exact Hm|].
  intros out Hout.
  assert (E : (shown r ++ opened w r ++ tr ++ [Log MsgSaving]) ++
              [Log MsgSaveFailed; Log MsgManualHint;
               Log (MsgLine (TOKEN_KEY ++ tok)); Exit 1] = out) by congruence.
  rewrite <- E. split; apply in_or_app; right; cbn [In]; tauto.
Qed.

Lemma persist_failure_prints_token_witness :
  let r := sample_response 900 5 in
  let w := read_only_world r (fun _ => reply_granted (lit "gho_x")) in
  reaches_polling w r /\ persist_fails w = true /\
  main 1 w =
    Some ((shown r ++ opened w r
           ++ [TokenRequest (device_code r); Log MsgAuthorized]
           ++ [Log MsgSaving]) ++
          [Log MsgSaveFailed; Log MsgManualHint;
           Log (MsgLine (lit "GITHUB_OAUTH_TOKEN=gho_x")); Exit 1%Z]).
Proof.
  intros r w.
  assert (Hw : reaches_polling w r) by (repeat split).
  split; [exact Hw|]. split; [reflexivity|].
  apply (persist_failure_prints_token w r 1
           [TokenRequest (device_code r); Log MsgAuthorized] (lit "gho_x") Hw);
    reflexivity.
Defined.

(** * Further properties of the store rewrite *)

Section StoreMore.

Lemma join_lines_split_lines (s : jsstring) : join_lines (split_lines s) = s.
Proof.
induction s as [|c s IH]; [reflexivity|].
cbn [split_lines]. destruct (is_lf c) eqn:Hc.
- apply N.eqb_eq in Hc. subst c. cbn [join_lines].
  destruct (split_lines s) eqn:E; [now apply split_lines_not_nil in E|].
  cbn [app]. now rewrite IH.
- destruct (split_lines s) as [|l ls] eqn:E; [now apply split_lines_not_nil in E|].
  cbn [join_lines] in *. destruct ls; cbn [app]; now rewrite <- IH.
Qed.

Lemma join_lines_snoc (ls : list jsstring) (x : jsstring) :
  ls <> [] -> join_lines (ls ++ [x]) = join_lines ls ++ LF :: x.
Proof.
induction ls as [|l ls IH]; [contradiction|]. intros _.
destruct ls as [|l' ls]; [reflexivity|].
change ((l :: l' :: ls) ++ [x]) with (l :: ((l' :: ls) ++ [x])).
cbn [join_lines]. change ((l' :: ls) ++ [x]) with (l' :: (ls ++ [x])) at 1.
cbv iota. rewrite IH by discriminate. cbn [join_lines].
now rewrite <- app_assoc.
Qed.

Lemma startsWith_iff (p s : jsstring) :
  startsWith p s = true <-> exists rest, s = p ++ rest.
Proof.
split.
- revert s. induction p as [|a p IH]; intros s H; [now exists s|].
  destruct s as [|b s]; [discriminate|]. cbn in H.
  apply andb_true_iff in H. destruct H as [Hab H]. apply N.eqb_eq in Hab.
  destruct (IH _ H) as [rest ->]. exists rest. now subst.
- intros [rest ->]. apply startsWith_app.
Qed.

Lemma unrelated_iff (l : jsstring) :
  unrelated l = true <->
  not_blank l = true /\ forall rest, l <> TOKEN_KEY ++ rest.
Proof.
unfold unrelated, not_token_line. rewrite andb_true_iff, negb_true_iff.
split; intros [H1 H2].
- split; [exact H2|]. intros rest ->. now rewrite startsWith_app in H1.
- split; [|exact H1]. destruct (startsWith TOKEN_KEY l) eqn:E; [|reflexivity].
  apply startsWith_iff in E. destruct E as [rest ->]. now elim (H2 rest).
Qed.

Lemma last_in (l : jsstring) (d : code_unit) : l <> [] -> In (last l d) l.
Proof.
intros H. rewrite (app_removelast_last d H) at 2.
apply in_or_app. right. now left.
Qed.

End StoreMore.

(** X1.  A store in which every line belongs to another key (no blank
    line, no line of the token) is kept as it is, to the code unit, and the
    token's line is appended after one line feed. *)
Theorem save_appends_to_clean_store (raw t : jsstring) :
  forallb unrelated (lines raw) = true ->
  save raw t = raw ++ LF :: token_line t.
Proof.
intros H. rewrite save_join. unfold unrelated_lines.
rewrite (forallb_filter_id _ _ H). unfold lines.
rewrite join_lines_snoc by apply split_lines_not_nil.
now rewrite join_lines_split_lines.
Qed.

Lemma save_appends_to_clean_store_witness :
  let raw := lit "FOO=bar" ++ LF :: lit "BAZ=1" in
  forallb unrelated (lines raw) = true /\
  save raw (lit "gho_x") = raw ++ LF :: lit "GITHUB_OAUTH_TOKEN=gho_x".
Proof.
intro raw. split; [reflexivity|].
apply (save_appends_to_clean_store raw (lit "gho_x")). reflexivity.
Defined.

(** X2.  Without a [.env] file, or with one that holds nothing but blank
    lines and earlier lines of the token, the text written is the token's
    line alone, with no line feed before or after it. *)
Theorem save_into_empty_store (raw t : jsstring) :
  save [] t = token_line t /\
  (forallb (fun l => negb (unrelated l)) (lines raw) = true ->
   save raw t = token_line t).
Proof.
split; [now rewrite save_join|].
intros H. rewrite save_join.
assert (E : unrelated_lines raw = []).
{ unfold unrelated_lines. induction (lines raw) as [|l ls IH]; [reflexivity|].
  cbn [forallb] in H. apply andb_true_iff in H. destruct H as [Hl Hls].
  cbn [filter]. apply negb_true_iff in Hl. rewrite Hl. now apply IH. }
now rewrite E.
Qed.

Lemma save_into_empty_store_witness :
  let raw := LF :: lit "GITHUB_OAUTH_TOKEN=old" ++ LF :: lit "  " ++ [LF] in
  forallb (fun l => negb (unrelated l)) (lines raw) = true /\
  save raw (lit "gho_x") = lit "GITHUB_OAUTH_TOKEN=gho_x".
Proof.
intro raw. split; [reflexivity|].
apply (proj2 (save_into_empty_store raw (lit "gho_x"))). reflexivity.
Defined.

(** X3.  Which lines a save keeps: a line is in the store written exactly
    when it is the new line of the token, or a line of the prior store that
    is not blank and does not begin, at its first code unit, with
    [GITHUB_OAUTH_TOKEN=].  So a token line that is indented, commented out
    or exported, and a key that only starts like the token's, stay. *)
Theorem save_line_membership (raw t l : jsstring) :
  no_newline t ->
  (In l (lines (save raw t)) <->
   l = token_line t \/
   (In l (lines raw) /\ not_blank l = true /\
    forall rest, l <> TOKEN_KEY ++ rest)).
Proof.
intros H. rewrite lines_save_single by assumption.
rewrite in_app_iff. unfold unrelated_lines. rewrite filter_In, unrelated_iff.
cbn [In]. intuition congruence.
Qed.

Lemma save_line_membership_witness :
  let raw := lit "# GITHUB_OAUTH_TOKEN=a" ++ LF :: lit "GITHUB_OAUTH_TOKEN=b"
             ++ LF :: lit "GITHUB_OAUTH_TOKEN_OLD=c" in
  no_newline (lit "gho_x") /\
  In (lit "# GITHUB_OAUTH_TOKEN=a") (lines (save raw (lit "gho_x"))) /\
  In (lit "GITHUB_OAUTH_TOKEN_OLD=c") (lines (save raw (lit "gho_x"))) /\
  ~ In (lit "GITHUB_OAUTH_TOKEN=b") (lines (save raw (lit "gho_x"))).
Proof.
intro raw.
assert (Hn : no_newline (lit "gho_x")) by (repeat constructor).
split; [exact Hn|]. split; [|split].
- apply (proj2 (save_line_membership raw (lit "gho_x") _ Hn)).
  right. split; [cbn; tauto|]. split; [reflexivity|]. intros rest; discriminate.
- apply (proj2 (save_line_membership raw (lit "gho_x") _ Hn)).
  right. split; [cbn; tauto|]. split; [reflexivity|]. intros rest; discriminate.
- intros Hin.
  apply (proj1 (save_line_membership raw (lit "gho_x") _ Hn)) in Hin.
  destruct Hin as [Hin|(_ & _ & Hin)]; [discriminate|].
  now apply (Hin (lit "b")).
Defined.

(** X4.  The text written always ends with the token's line, which either
    starts the text or follows a line feed; and when the token value has no
    line feed the text does not end with one: the store is left without a
    final newline. *)
Theorem save_ends_with_token_line (raw t : jsstring) :
  (exists pre, save raw t = pre ++ token_line t /\
               (pre = [] \/ exists pre', pre = pre' ++ [LF])) /\
  (no_newline t -> forall s, save raw t <> s ++ [LF]).
Proof.
assert (Hpre : exists pre, save raw t = pre ++ token_line t /\
               (pre = [] \/ exists pre', pre = pre' ++ [LF])).
{ rewrite save_join. destruct (unrelated_lines raw) as [|u us] eqn:E.
  - exists []. split; [reflexivity | now left].
  - exists (join_lines (u :: us) ++ [LF]). split.
    + rewrite join_lines_snoc by discriminate. now rewrite <- app_assoc.
    + right. now exists (join_lines (u :: us)). }
split; [exact Hpre|].
intros Hn s Hs. destruct Hpre as (pre & Hp & _). rewrite Hp in Hs.
assert (Hne : token_line t <> []) by discriminate.
rewrite (app_removelast_last LF Hne), app_assoc in Hs.
apply app_inj_tail in Hs. destruct Hs as [_ Hs].
pose proof (last_in (token_line t) LF Hne) as Hin.
pose proof (no_newline_token_line t Hn) as Hall.
unfold no_newline in Hall. rewrite Forall_forall in Hall.
apply Hall in Hin. rewrite Hs in Hin. discriminate.
Qed.

Lemma save_ends_with_token_line_witness :
  no_newline (lit "gho_x") /\
  save (lit "FOO=bar" ++ [LF]) (lit "gho_x") <>
    (lit "FOO=bar" ++ LF :: lit "GITHUB_OAUTH_TOKEN=gho_x") ++ [LF].
Proof.
assert (Hn : no_newline (lit "gho_x")) by (repeat constructor).
split; [exact Hn|].
apply (proj2 (save_ends_with_token_line (lit "FOO=bar" ++ [LF]) (lit "gho_x")) Hn).
Defined.

(** * The shape of a run *)

Section LoopShape.

Variables (dc : field) (i : Z) (m : jsnum) (reply : nat -> poll_reply).

Local Open Scope Z_scope.

(** A pass either goes on, after a request, a line and perhaps the extra
    second; or leaves with the token; or exits with status 1. *)
Lemma poll_once_inv (n : nat) (evs : trace) (oe : option loop_end) :
  poll_once dc reply n = (evs, oe) ->
  (oe = None /\ continues (classify (reply n)) = true /\
   exists msg, evs = [TokenRequest dc; Log msg] \/
               evs = [TokenRequest dc; Log msg; Sleep 1000]) \/
  (exists tok, oe = Some (Break tok) /\ classify (reply n) = Granted tok /\
               evs = [TokenRequest dc; Log MsgAuthorized]) \/
  (oe = Some Exited /\
   (classify (reply n) = ExpiredToken \/ classify (reply n) = AccessDenied) /\
   exists msg, evs = [TokenRequest dc; Log msg; Exit 1]).
Proof.
unfold poll_once. destruct (classify (reply n)) eqn:E; intros H;
  injection H as <- <-; cbn [continues]; eauto 10.
Qed.

(** A finished loop is some passes that went on, then nothing (the
    condition failed) or the events of the pass that left. *)
Lemma poll_loop_shape (f : nat) :
  forall (x : Z) (n : nat) (tr : trace) (e : loop_end),
  poll_loop dc i m reply f x n = Some (tr, e) ->
  exists k evs,
    (k < f)%nat /\
    tr = passes dc i reply n k ++ evs /\
    (forall j, (j < k)%nat ->
       continues (classify (reply (n + j))) = true /\
       loop_cond m (x - Z.of_nat j * i) (n + j) = true) /\
    ((e = Fallthrough /\ evs = [] /\
      loop_cond m (x - Z.of_nat k * i) (n + k) = false) \/
     (loop_cond m (x - Z.of_nat k * i) (n + k) = true /\
      poll_once dc reply (n + k) = (evs, Some e))).
Proof.
induction f as [|f IH]; intros x n tr e H; [discriminate|].
rewrite poll_loop_S in H.
destruct (loop_cond m x n) eqn:Hc.
2:{ injection H as <- <-. exists 0%nat, []. rewrite Nat.add_0_r.
    replace (x - Z.of_nat 0 * i) with x by lia.
    repeat split; try lia; auto. }
destruct (poll_once dc reply n) as [evs0 [e0|]] eqn:Eo.
- injection H as <- <-. exists 0%nat, evs0. rewrite Nat.add_0_r.
  replace (x - Z.of_nat 0 * i) with x by lia.
  split; [lia|]. split; [reflexivity|]. split; [intros j Hj; lia|].
  right. now split.
- destruct (poll_loop dc i m reply f (x - i) (S n)) as [[tr' e']|] eqn:El;
    [|discriminate].
  injection H as <- <-.
  destruct (IH _ _ _ _ El) as (k & evs & Hk & -> & Hgo & Hend).
  exists (S k), evs. split; [lia|]. split.
  { cbn [passes]. rewrite Eo. cbn [fst]. now rewrite <- app_assoc. }
  replace (n + S k)%nat with (S n + k)%nat by lia.
  replace (x - Z.of_nat (S k) * i) with (x - i - Z.of_nat k * i) by lia.
  split; [|exact Hend].
  intros [|j] Hj.
  + rewrite Nat.add_0_r. replace (x - Z.of_nat 0 * i) with x by lia.
    split; [|exact Hc]. unfold poll_once in Eo.
    destruct (classify (reply n)); try discriminate Eo; reflexivity.
  + replace (n + S j)%nat with (S n + j)%nat by lia.
    replace (x - Z.of_nat (S j) * i) with (x - i - Z.of_nat j * i) by lia.
    apply Hgo. lia.
Qed.

(** The passes that go on hold token requests, printed lines and sleeps
    only. *)
Lemma passes_filter (p : event -> bool) (n k : nat) :
  p (TokenRequest dc) = false ->
  (forall msg, p (Log msg) = false) ->
  (forall ms, p (Sleep ms) = false) ->
  (forall j, (j < k)%nat -> continues (classify (reply (n + j))) = true) ->
  filter p (passes dc i reply n k) = [].
Proof.
intros Hr Hl Hs. revert n. induction k as [|k IH]; intros n Hgo; [reflexivity|].
cbn [passes]. rewrite filter_app. cbn [filter]. rewrite Hs, IH, app_nil_r.
- pose proof (Hgo 0%nat ltac:(lia)) as H0. rewrite Nat.add_0_r in H0.
  unfold poll_once. destruct (classify (reply n)); try discriminate H0;
    cbn [fst filter]; rewrite ?Hr, ?Hl, ?Hs; reflexivity.
- intros j Hj. replace (S n + j)%nat with (n + S j)%nat by lia.
  apply Hgo. lia.
Qed.

Lemma passes_token_requests (n k : nat) (d : field) :
  In (TokenRequest d) (passes dc i reply n k) -> d = dc.
Proof.
revert n. induction k as [|k IH]; intros n; [contradiction|].
cbn [passes]. rewrite in_app_iff. intros [H|[H|H]]; [|discriminate|eauto].
unfold poll_once in H. destruct (classify (reply n)); cbn [fst In] in H;
  repeat (destruct H as [H|H]; [try discriminate H; congruence|]);
  contradiction.
Qed.

End LoopShape.

Section RunShape.

Local Open Scope Z_scope.

Lemma store_token_shape (w : world) (tok : jsstring) :
  store_token w tok =
  if persist_fails w then
    [Log MsgSaveFailed; Log MsgManualHint; Log (MsgLine (token_line tok)); Exit 1]
  else [WriteEnv (save (prior_store w) tok); Log MsgSaved; Exit 0].
Proof.
unfold store_token, persist_fails, prior_store.
destruct (env_file w); [destruct (read_throws w)|]; cbn [orb];
  try reflexivity; now destruct (write_throws w).
Qed.

(** A finished poll, whatever fields the response has. *)
Lemma poll_shape (fuel : nat) (r : response1) (reply : nat -> poll_reply)
    (tr : trace) (e : loop_end) :
  poll fuel r reply = Some (tr, e) ->
  exists k evs,
    tr = passes (device_code r) (interval_of r) reply 0 k ++ evs /\
    (forall j, (j < k)%nat -> continues (classify (reply j)) = true) /\
    ((e = Fallthrough /\ evs = []) \/
     poll_once (device_code r) reply k = (evs, Some e)).
Proof.
unfold poll, interval_of.
destruct (expires_in r) as [x|]; [destruct (interval r) as [i|]|].
- intros H. apply poll_loop_shape in H.
  destruct H as (k & evs & _ & -> & Hgo & Hend).
  exists k, evs. split; [reflexivity|]. split.
  + intros j Hj. now apply (Hgo j).
  + destruct Hend as [(-> & -> & _)|[_ Ho]]; [now left | now right].
- intros H. injection H as <- <-. exists 0%nat, []. split; [reflexivity|].
  split; [intros j Hj; lia | now left].
- intros H. injection H as <- <-. exists 0%nat, []. split; [reflexivity|].
  split; [intros j Hj; lia | now left].
Qed.

(** A finished run that got as far as the loop. *)
Lemma main_polling_shape (fuel : nat) (w : world) (r : response1) (tr : trace) :
  reaches_polling w r -> main fuel w = Some tr ->
  exists k evs e,
    tr = shown r ++ opened w r
         ++ passes (device_code r) (interval_of r) (replies w) 0 k
         ++ evs ++ after_poll w e /\
    (forall j, (j < k)%nat -> continues (classify (replies w j)) = true) /\
    ((e = Fallthrough /\ evs = []) \/
     poll_once (device_code r) (replies w) k = (evs, Some e)).
Proof.
intros Hw H. rewrite (main_polling _ _ _ Hw) in H.
destruct (poll fuel r (replies w)) as [[trl e]|] eqn:Ep; [|discriminate].
destruct (poll_shape _ _ _ _ _ Ep) as (k & evs & -> & Hgo & Hend).
exists k, evs, e. split; [|now split].
injection H as <-. now rewrite <- !app_assoc.
Qed.

(** The runs that do not get as far as the loop. *)
Lemma main_early (fuel : nat) (w : world) (tr : trace) :
  main fuel w = Some tr ->
  (isTTY w = false /\ tr = [Log MsgNotTTY; Exit 0]) \/
  (isTTY w = true /\
   ((request1 w = Fetch1Failed /\
     tr = [Log MsgBanner; DeviceCodeRequest; Log MsgRequestFailed; Exit 1]) \/
    (request1 w = Fetch1Unreadable /\
     tr = [Log MsgBanner; DeviceCodeRequest; Log MsgUnexpectedError; Exit 1]) \/
    (exists r, request1 w = Fetch1Json r /\ invalid_response r = true /\
       tr = [Log MsgBanner; DeviceCodeRequest; Log MsgInvalidResponse; Exit 1]) \/
    (exists r, request1 w = Fetch1Json r /\ invalid_response r = false /\
       is_ctrl_c (keypress_data w) = true /\
       tr = shown r ++ [Log MsgCtrlC; Exit 1]) \/
    (exists r, reaches_polling w r))).
Proof.
unfold main, reaches_polling. intros H.
destruct (isTTY w); cbn [negb] in H; [right; split; [reflexivity|] | left].
2:{ injection H as <-. now split. }
destruct (request1 w) as [| |r].
- left. injection H as <-. now split.
- right; left. injection H as <-. now split.
- destruct (invalid_response r) eqn:Ei.
  + right; right; left. injection H as <-. now exists r.
  + destruct (is_ctrl_c (keypress_data w)) eqn:Ek.
    * right; right; right; left. injection H as <-. now exists r.
    * right; right; right; right. now exists r.
Qed.

End RunShape.

Section RunEndings.

Local Open Scope Z_scope.

(** Once the loop is reached a run ends in one of four ways: the budget
    is used up; the server says expired or denied; the token is granted and
    the store cannot be written; the token is granted and stored. *)
Lemma main_polling_endings (fuel : nat) (w : world) (r : response1) (tr : trace) :
  reaches_polling w r -> main fuel w = Some tr ->
  exists k tail,
    tr = (shown r ++ opened w r
          ++ passes (device_code r) (interval_of r) (replies w) 0 k) ++ tail /\
    (forall j, (j < k)%nat -> continues (classify (replies w j)) = true) /\
    (tail = [Log MsgTimedOut; Exit 1] \/
     (exists msg,
        (classify (replies w k) = ExpiredToken \/
         classify (replies w k) = AccessDenied) /\
        tail = [TokenRequest (device_code r); Log msg; Exit 1]) \/
     (exists tok,
        classify (replies w k) = Granted tok /\ persist_fails w = true /\
        tail = [TokenRequest (device_code r); Log MsgAuthorized; Log MsgSaving;
                Log MsgSaveFailed; Log MsgManualHint;
                Log (MsgLine (token_line tok)); Exit 1]) \/
     (exists tok,
        classify (replies w k) = Granted tok /\ persist_fails w = false /\
        tail = [TokenRequest (device_code r); Log MsgAuthorized; Log MsgSaving;
                WriteEnv (save (prior_store w) tok); Log MsgSaved; Exit 0])).
Proof.
intros Hw H.
destruct (main_polling_shape _ _ _ _ Hw H) as (k & evs & e & -> & Hgo & Hend).
exists k, (evs ++ after_poll w e). split; [now rewrite <- !app_assoc|].
split; [exact Hgo|].
destruct Hend as [[-> ->]|Ho]; [now left|].
apply poll_once_inv in Ho.
destruct Ho as [(Hn & _)|[(tok & He & Hc & ->)|(He & Hc & msg & ->)]];
  [discriminate| |].
- injection He as ->. cbn [after_poll]. rewrite store_token_shape.
  destruct (persist_fails w) eqn:Ef.
  + right; right; left. exists tok. now repeat split.
  + right; right; right. exists tok. now repeat split.
- injection He as ->. right; left. exists msg. split; [exact Hc|].
  cbn [after_poll]. now rewrite app_nil_r.
Qed.

Lemma prologue_filter (p : event -> bool) (w : world) (r : response1) :
  (forall msg, p (Log msg) = false) ->
  filter p (shown r ++ opened w r) =
  filter p [DeviceCodeRequest; AwaitKeypress; OpenBrowser (verification_uri r)].
Proof.
intros Hl. unfold shown, opened. cbn [app filter]. rewrite !Hl. reflexivity.
Qed.

Lemma In_filter_nil (p : event -> bool) (l : trace) (x : event) :
  filter p l = [] -> p x = true -> ~ In x l.
Proof.
intros Hf Hp Hin.
assert (H : In x (filter p l)) by (apply filter_In; now split).
now rewrite Hf in H.
Qed.

End RunEndings.

(** * Further properties of a run *)

(** X5.  Every run that ends, ends with [process.exit]: the exit is the
    last thing the script does, it happens once, and the status is 0 or
    1. *)
Theorem run_exits_once (fuel : nat) (w : world) (tr : trace) :
  main fuel w = Some tr ->
  exists pre c,
    tr = pre ++ [Exit c] /\ filter is_exit pre = [] /\ (c = 0 \/ c = 1)%Z.
Proof.
intros H.
destruct (main_early _ _ _ H)
  as [[_ ->]|[_ [[_ ->]|[[_ ->]|[(r & _ & _ & ->)|[(r & _ & _ & _ & ->)|[r Hw]]]]]]].
- exists [Log MsgNotTTY], 0%Z. auto.
- exists [Log MsgBanner; DeviceCodeRequest; Log MsgRequestFailed], 1%Z. auto.
- exists [Log MsgBanner; DeviceCodeRequest; Log MsgUnexpectedError], 1%Z. auto.
- exists [Log MsgBanner; DeviceCodeRequest; Log MsgInvalidResponse], 1%Z. auto.
- exists (shown r ++ [Log MsgCtrlC]), 1%Z. auto.
- destruct (main_polling_endings _ _ _ _ Hw H) as (k & tail & -> & Hgo & Hend).
  assert (Hpre : filter is_exit
            (shown r ++ opened w r
             ++ passes (device_code r) (interval_of r) (replies w) 0 k) = []).
  { rewrite app_assoc, filter_app, prologue_filter by reflexivity.
    rewrite passes_filter; auto. }
  set (P := shown r ++ opened w r
            ++ passes (device_code r) (interval_of r) (replies w) 0 k) in *.
  destruct Hend as [->|[(msg & _ & ->)|[(tok & _ & _ & ->)|(tok & _ & _ & ->)]]].
  + exists (P ++ [Log MsgTimedOut]), 1%Z.
    split; [now rewrite <- app_assoc|]. rewrite filter_app, Hpre. auto.
  + exists (P ++ [TokenRequest (device_code r); Log msg]), 1%Z.
    split; [now rewrite <- app_assoc|]. rewrite filter_app, Hpre. auto.
  + exists (P ++ [TokenRequest (device_code r); Log MsgAuthorized; Log MsgSaving;
                  Log MsgSaveFailed; Log MsgManualHint;
                  Log (MsgLine (token_line tok))]), 1%Z.
    split; [now rewrite <- app_assoc|]. rewrite filter_app, Hpre. auto.
  + exists (P ++ [TokenRequest (device_code r); Log MsgAuthorized; Log MsgSaving;
                  WriteEnv (save (prior_store w) tok); Log MsgSaved]), 0%Z.
    split; [now rewrite <- app_assoc|]. rewrite filter_app, Hpre. auto.
Qed.

Lemma run_exits_once_witness :
  let w := sample_world (sample_response 900 300) (fun _ => reply_pending) in
  exists tr pre c,
    main 4 w = Some tr /\ tr = pre ++ [Exit c] /\ filter is_exit pre = [].
Proof.
intro w. eexists.
destruct (run_exits_once 4 w _ eq_refl) as (pre & c & H1 & H2 & _).
exists pre, c. split; [reflexivity|]. split; assumption.
Defined.

(** X6.  On a terminal a run exits with status 0 exactly when it has
    written [.env]: then it has written it once, with the token of a reply
    that granted one, saved over the prior text of the file; in every other
    run that ends, the status is 1 and [.env] is not written. *)
Theorem run_status_and_store (fuel : nat) (w : world) (tr : trace) :
  main fuel w = Some tr -> isTTY w = true ->
  (filter is_exit tr = [Exit 0] /\
   persist_fails w = false /\
   exists k tok,
     classify (replies w k) = Granted tok /\
     filter is_write tr = [WriteEnv (save (prior_store w) tok)]) \/
  (filter is_exit tr = [Exit 1] /\ filter is_write tr = []).
Proof.
intros H Ht.
destruct (main_early _ _ _ H)
  as [[Hf _]|[_ [[_ ->]|[[_ ->]|[(r & _ & _ & ->)|[(r & _ & _ & _ & ->)|[r Hw]]]]]]];
  [congruence| | | | |]; try (right; split; reflexivity).
destruct (main_polling_endings _ _ _ _ Hw H) as (k & tail & -> & Hgo & Hend).
assert (He : filter is_exit
          (shown r ++ opened w r
           ++ passes (device_code r) (interval_of r) (replies w) 0 k) = []).
{ rewrite app_assoc, filter_app, prologue_filter by reflexivity.
  rewrite passes_filter; auto. }
assert (Hwr : filter is_write
          (shown r ++ opened w r
           ++ passes (device_code r) (interval_of r) (replies w) 0 k) = []).
{ rewrite app_assoc, filter_app, prologue_filter by reflexivity.
  rewrite passes_filter; auto. }
set (P := shown r ++ opened w r
          ++ passes (device_code r) (interval_of r) (replies w) 0 k) in *.
rewrite !filter_app, He, Hwr.
destruct Hend as [->|[(msg & _ & ->)|[(tok & _ & _ & ->)|(tok & Hc & Hp & ->)]]];
  try (right; split; reflexivity).
left. split; [reflexivity|]. split; [exact Hp|]. now exists k, tok.
Qed.

Lemma run_status_and_store_witness :
  let r := sample_response 900 5 in
  let w := sample_world r (script [reply_pending] (reply_granted (lit "gho_x"))) in
  exists tr,
    main 2 w = Some tr /\ isTTY w = true /\
    filter is_exit tr = [Exit 0%Z] /\
    filter is_write tr =
      [WriteEnv (lit "FOO=bar" ++ LF :: lit "GITHUB_OAUTH_TOKEN=gho_x")].
Proof.
intros r w. eexists. split; [reflexivity|]. split; [reflexivity|].
destruct (run_status_and_store 2 w _ eq_refl eq_refl)
  as [(He & _ & _)|(He & _)]; [|discriminate He].
split; [exact He | reflexivity].
Defined.

(** X7.  Every token request of a run carries the device code of the
    device-authorization response, and that code is not empty; no token
    request is made without an accepted response. *)
Theorem token_requests_carry_device_code
    (fuel : nat) (w : world) (tr : trace) (d : field) :
  main fuel w = Some tr -> In (TokenRequest d) tr ->
  exists r, request1 w = Fetch1Json r /\ invalid_response r = false /\
            d = device_code r /\ truthy d = true.
Proof.
intros H Hin.
destruct (main_early _ _ _ H)
  as [[_ ->]|[_ [[_ ->]|[[_ ->]|[(r & _ & _ & ->)|[(r & _ & _ & _ & ->)|[r Hw]]]]]]];
  try (cbn in Hin; intuition discriminate).
destruct (main_polling_endings _ _ _ _ Hw H) as (k & tail & -> & Hgo & Hend).
assert (Hd : d = device_code r).
{ rewrite !in_app_iff in Hin. destruct Hin as [[Hin|[Hin|Hin]]|Hin].
  - cbn in Hin. intuition discriminate.
  - cbn in Hin. intuition discriminate.
  - now apply passes_token_requests in Hin.
  - destruct Hend as [->|[(msg & _ & ->)|[(tok & _ & _ & ->)|(tok & _ & _ & ->)]]];
      cbn [In] in Hin;
      repeat (destruct Hin as [Hin|Hin]; [try discriminate Hin; congruence|]);
      contradiction. }
destruct Hw as (_ & Hr & Hv & _). exists r. repeat split; try assumption.
subst d. unfold invalid_response in Hv. apply orb_false_iff in Hv.
destruct Hv as [_ Hv]. now apply negb_false_iff in Hv.
Qed.

Lemma token_requests_carry_device_code_witness :
  let r := sample_response 900 5 in
  let w := sample_world r (fun _ => reply_denied) in
  exists tr r',
    main 1 w = Some tr /\ In (TokenRequest (device_code r)) tr /\
    request1 w = Fetch1Json r' /\ device_code r = device_code r'.
Proof.
intros r w. eexists.
assert (Hin : In (TokenRequest (device_code r))
                 (shown r ++ opened w r ++
                  [TokenRequest (device_code r); Log MsgDenied; Exit 1%Z])).
{ cbn. tauto. }
destruct (token_requests_carry_device_code 1 w _ _ eq_refl Hin)
  as (r' & Hr & _ & Hd & _).
exists r'. split; [reflexivity|]. split; [exact Hin|]. split; assumption.
Defined.

(** X8.  The device-code request is made once in every run on a terminal
    and never repeated, whatever the polls answer; without a terminal it is
    not made at all. *)
Theorem device_code_requested_once (fuel : nat) (w : world) (tr : trace) :
  main fuel w = Some tr ->
  filter is_device_code_request tr =
  if isTTY w then [DeviceCodeRequest] else [].
Proof.
intros H.
destruct (main_early _ _ _ H)
  as [[Ht ->]|[Ht [[_ ->]|[[_ ->]|[(r & _ & _ & ->)|[(r & _ & _ & _ & ->)|[r Hw]]]]]]];
  rewrite Ht; try reflexivity.
destruct (main_polling_endings _ _ _ _ Hw H) as (k & tail & -> & Hgo & Hend).
rewrite filter_app, app_assoc, filter_app, prologue_filter by reflexivity.
rewrite passes_filter; auto.
destruct Hend as [->|[(msg & _ & ->)|[(tok & _ & _ & ->)|(tok & _ & _ & ->)]]];
  reflexivity.
Qed.

Lemma device_code_requested_once_witness :
  let w := sample_world (sample_response 900 300) (fun _ => reply_unknown) in
  exists tr, main 4 w = Some tr /\
             filter is_device_code_request tr = [DeviceCodeRequest].
Proof.
intro w. eexists. split; [reflexivity|].
apply (device_code_requested_once 4 w _ eq_refl).
Defined.

(** X9.  The wait for a key decides what follows: when the first byte
    read is 3 (Ctrl+C) the run opens no browser and makes no token request;
    when the response was accepted and any other key is pressed, the
    browser is opened once, on the verification URI of the response. *)
Theorem browser_after_key (fuel : nat) (w : world) (tr : trace) :
  main fuel w = Some tr ->
  (is_ctrl_c (keypress_data w) = true ->
   filter is_open tr = [] /\ count_polls tr = 0%nat) /\
  (forall r, reaches_polling w r ->
   filter is_open tr = [OpenBrowser (verification_uri r)]).
Proof.
intros H. split.
- intros Hk.
  destruct (main_early _ _ _ H)
    as [[_ ->]|[_ [[_ ->]|[[_ ->]|[(r & _ & _ & ->)|[(r & _ & _ & _ & ->)|[r Hw]]]]]]];
    try (split; reflexivity).
  destruct Hw as (_ & _ & _ & Hn). congruence.
- intros r Hw.
  destruct (main_polling_endings _ _ _ _ Hw H) as (k & tail & -> & Hgo & Hend).
  rewrite filter_app, app_assoc, filter_app, prologue_filter by reflexivity.
  rewrite passes_filter; auto.
  destruct Hend as [->|[(msg & _ & ->)|[(tok & _ & _ & ->)|(tok & _ & _ & ->)]]];
    reflexivity.
Qed.

Lemma browser_after_key_witness :
  let r := sample_response 900 5 in
  let w := {| isTTY := true; request1 := Fetch1Json r; keypress_data := [3%N; 13%N];
              open_rejects := false; replies := fun _ => reply_granted (lit "gho_x");
              env_file := None; read_throws := false; write_throws := false |} in
  exists tr, main 1 w = Some tr /\ is_ctrl_c (keypress_data w) = true /\
             filter is_open tr = [] /\ count_polls tr = 0%nat.
Proof.
intros r w. eexists. split; [reflexivity|]. split; [reflexivity|].
apply (proj1 (browser_after_key 1 w _ eq_refl)). reflexivity.
Defined.

Section RunPaths.

Local Open Scope Z_scope.

(** The run whose first [k] polls go on and whose next pass leaves the
    loop. *)
Lemma main_stops_at (w : world) (r : response1) (e i : Z) (k fuel : nat)
    (evs : trace) (e' : loop_end) :
  reaches_polling w r ->
  expires_in r = Some e -> interval r = Some i ->
  (forall j, (j < k)%nat -> continues (classify (replies w j)) = true) ->
  enters e i k = true -> (k < fuel)%nat ->
  poll_once (device_code r) (replies w) k = (evs, Some e') ->
  main fuel w =
  Some (shown r ++ opened w r ++ passes (device_code r) i (replies w) 0 k
        ++ evs ++ after_poll w e').
Proof.
intros Hw He Hi Hgo Hk Hfuel Ho.
rewrite (main_polling _ _ _ Hw), (poll_fields _ _ _ _ _ He Hi).
replace fuel with (k + S (fuel - S k))%nat by lia.
rewrite poll_loop_passes.
- rewrite poll_loop_S. cbn [Nat.add]. rewrite <- enters_cond, Hk, Ho.
  now rewrite <- !app_assoc.
- intros j Hj. cbn [Nat.add]. split; [now apply Hgo|].
  rewrite <- enters_cond. apply enters_earlier with (k := k); [exact Hk|lia].
Qed.

(** With a positive interval the countdown never decides: a pass is
    entered exactly while the attempts are below the budget. *)
Lemma enters_budget (e i : Z) (k : nat) :
  0 <= e -> 1 <= i -> enters e i k = (Z.of_nat k <? e / i).
Proof.
intros He Hi. unfold enters. rewrite floor_div_pos by lia. cbn [lt_num].
destruct (Z.of_nat k <? e / i) eqn:E; [|apply andb_false_r].
rewrite andb_true_r. apply Z.ltb_lt in E. apply Z.ltb_lt.
pose proof (Z.mul_div_le e i ltac:(lia)). nia.
Qed.

End RunPaths.

(** X10.  The way to success: when the first [k] answers let the loop go
    on, pass [k] is entered and its answer grants a token, and [.env] can
    be written, the run makes [k + 1] token requests, does not sleep after
    the last one, writes the store with the token saved over its prior
    text, and exits with status 0. *)
Theorem granted_is_stored
    (w : world) (r : response1) (e i : Z) (k fuel : nat) (tok : jsstring) :
  reaches_polling w r ->
  expires_in r = Some e -> interval r = Some i ->
  (forall j, (j < k)%nat -> continues (classify (replies w j)) = true) ->
  enters e i k = true -> (k < fuel)%nat ->
  classify (replies w k) = Granted tok ->
  persist_fails w = false ->
  main fuel w =
    Some (shown r ++ opened w r ++ passes (device_code r) i (replies w) 0 k
          ++ [TokenRequest (device_code r); Log MsgAuthorized; Log MsgSaving;
              WriteEnv (save (prior_store w) tok); Log MsgSaved; Exit 0]) /\
  count_polls (passes (device_code r) i (replies w) 0 k) = k.
Proof.
intros Hw He Hi Hgo Hk Hfuel Hc Hp. split; [|apply count_polls_passes].
rewrite (main_stops_at w r e i k fuel
           [TokenRequest (device_code r); Log MsgAuthorized] (Break tok));
  try assumption.
- cbn [after_poll]. rewrite store_token_shape, Hp. reflexivity.
- unfold poll_once. now rewrite Hc.
Qed.

Lemma granted_is_stored_witness :
  let r := sample_response 900 5 in
  let w := sample_world r (script [reply_unknown; PollThrows]
                             (reply_granted (lit "gho_x"))) in
  reaches_polling w r /\ enters 900 5 2 = true /\ persist_fails w = false /\
  main 3 w =
    Some (shown r ++ opened w r ++ passes (device_code r) 5 (replies w) 0 2
          ++ [TokenRequest (device_code r); Log MsgAuthorized; Log MsgSaving;
              WriteEnv (save (prior_store w) (lit "gho_x")); Log MsgSaved;
              Exit 0%Z]).
Proof.
intros r w.
assert (Hw : reaches_polling w r) by (repeat split).
split; [exact Hw|]. split; [reflexivity|]. split; [reflexivity|].
apply (granted_is_stored w r 900 5 2 3 (lit "gho_x") Hw eq_refl eq_refl);
  [ intros [|[|j]] Hj; [reflexivity | reflexivity | lia]
  | reflexivity | lia | reflexivity | reflexivity ].
Defined.

(** X11.  The way to the time-out: for an expiry [e >= 0] and an interval
    [i >= 1], when no answer ends the loop the run makes exactly
    [floor(e / i)] token requests, each followed by its sleep, then prints
    the time-out lines and exits with status 1. *)
Theorem budget_used_up
    (w : world) (r : response1) (e i : Z) (fuel : nat) :
  reaches_polling w r ->
  expires_in r = Some e -> interval r = Some i ->
  (0 <= e)%Z -> (1 <= i)%Z ->
  (forall j, Z.of_nat j < e / i -> continues (classify (replies w j)) = true)%Z ->
  (Z.to_nat (e / i) < fuel)%nat ->
  main fuel w =
    Some (shown r ++ opened w r
          ++ passes (device_code r) i (replies w) 0 (Z.to_nat (e / i))
          ++ [Log MsgTimedOut; Exit 1]) /\
  count_polls (passes (device_code r) i (replies w) 0 (Z.to_nat (e / i))) =
    Z.to_nat (e / i).
Proof.
intros Hw He Hi He0 Hi1 Hgo Hfuel. split; [|apply count_polls_passes].
assert (Hq : (0 <= e / i)%Z) by (apply Z.div_pos; lia).
rewrite (main_polling _ _ _ Hw), (poll_fields _ _ _ _ _ He Hi).
replace fuel with (Z.to_nat (e / i) + S (fuel - S (Z.to_nat (e / i))))%nat by lia.
rewrite poll_loop_passes.
- rewrite poll_loop_S. cbn [Nat.add]. rewrite <- enters_cond.
  rewrite enters_budget by assumption.
  replace (Z.of_nat (Z.to_nat (e / i)) <? e / i)%Z with false
    by (symmetry; apply Z.ltb_ge; lia).
  cbn [after_poll]. now rewrite app_nil_r.
- intros j Hj. cbn [Nat.add]. rewrite <- enters_cond, enters_budget by assumption.
  split; [apply Hgo; lia | apply Z.ltb_lt; lia].
Qed.

Lemma budget_used_up_witness :
  let r := sample_response 900 300 in
  let w := sample_world r (fun _ => reply_slow_down) in
  reaches_polling w r /\ (0 <= 900)%Z /\ (1 <= 300)%Z /\
  main 4 w =
    Some (shown r ++ opened w r
          ++ passes (device_code r) 300 (replies w) 0 (Z.to_nat (900 / 300))
          ++ [Log MsgTimedOut; Exit 1%Z]).
Proof.
intros r w.
assert (Hw : reaches_polling w r) by (repeat split).
split; [exact Hw|]. split; [lia|]. split; [lia|].
apply (budget_used_up w r 900 300 4 Hw eq_refl eq_refl);
  [ lia | lia | intros j _; reflexivity | vm_compute; lia ].
Defined.

(** X12.  For an expiry [e >= 0] and an interval [i >= 1] the test
    [expiresIn > 0] of the loop never decides: pass [k] is entered exactly
    when [k < floor(e / i)], the test on the attempts. *)
Theorem countdown_never_decides (e i : Z) (k : nat) :
  (0 <= e)%Z -> (1 <= i)%Z ->
  enters e i k = (Z.of_nat k <? e / i)%Z /\
  (lt_num (Z.of_nat k) (floor_div e i) = true -> (0 <? e - Z.of_nat k * i)%Z = true).
Proof.
intros He Hi. split; [now apply enters_budget|].
intros H. pose proof (enters_budget e i k He Hi) as E. unfold enters in E.
rewrite H, andb_true_r in E. rewrite E.
rewrite floor_div_pos in H by lia. exact H.
Qed.

Lemma countdown_never_decides_witness :
  (0 <= 7)%Z /\ (1 <= 2)%Z /\
  enters 7 2 2 = true /\ enters 7 2 3 = false.
Proof.
split; [lia|]. split; [lia|].
rewrite (proj1 (countdown_never_decides 7 2 2 ltac:(lia) ltac:(lia))).
rewrite (proj1 (countdown_never_decides 7 2 3 ltac:(lia) ltac:(lia))).
split; reflexivity.
Defined.

Section RunMore.

Local Open Scope Z_scope.

(** With an interval of 0 and time left the budget has no end: a loop
    whose answers all go on uses up any fuel. *)
Lemma poll_loop_interval_zero (dc : field) (reply : nat -> poll_reply) (e : Z) (f : nat) :
  0 < e -> (forall n, continues (classify (reply n)) = true) ->
  forall n, poll_loop dc 0 PosInf reply f e n = None.
Proof.
intros He Hgo. induction f as [|f IH]; intros n; [reflexivity|].
rewrite poll_loop_S. unfold loop_cond. cbn [lt_num].
replace (0 <? e) with true by (symmetry; now apply Z.ltb_lt). cbn [andb].
specialize (Hgo n). unfold poll_once.
replace (e - 0) with e by lia.
destruct (classify (reply n)); try discriminate Hgo; now rewrite IH.
Qed.

(** Outcomes of the same effect make the same pass, up to the line
    printed. *)
Lemma poll_once_same_effect (dc : field) (reply reply' : nat -> poll_reply) (n : nat) :
  same_effect (classify (reply n)) (classify (reply' n)) = true ->
  actions (fst (poll_once dc reply n)) = actions (fst (poll_once dc reply' n)) /\
  snd (poll_once dc reply n) = snd (poll_once dc reply' n).
Proof.
unfold poll_once.
destruct (classify (reply n)) as [a| | | | | |],
         (classify (reply' n)) as [b| | | | | |];
  cbn [same_effect]; try discriminate; intros H; try (split; reflexivity).
apply strict_eq_eq in H. subst b. split; reflexivity.
Qed.

Lemma poll_loop_same_effect (dc : field) (i : Z) (m : jsnum)
    (reply reply' : nat -> poll_reply) (f : nat) :
  (forall n, same_effect (classify (reply n)) (classify (reply' n)) = true) ->
  forall (x : Z) (n : nat),
  option_map acts (poll_loop dc i m reply f x n) =
  option_map acts (poll_loop dc i m reply' f x n).
Proof.
intros Hsame. induction f as [|f IH]; intros x n; [reflexivity|].
rewrite !poll_loop_S.
destruct (loop_cond m x n); [|reflexivity].
destruct (poll_once_same_effect dc reply reply' n (Hsame n)) as [Ha Hs].
destruct (poll_once dc reply n) as [evs oe].
destruct (poll_once dc reply' n) as [evs' oe'].
cbn [fst snd] in Ha, Hs. subst oe'.
destruct oe as [e|];
  [cbn [option_map]; unfold acts; cbn [fst snd]; now rewrite Ha|].
specialize (IH (x - i) (S n)).
destruct (poll_loop dc i m reply f (x - i) (S n)) as [[tr e]|];
  destruct (poll_loop dc i m reply' f (x - i) (S n)) as [[tr' e']|];
  try discriminate; [|reflexivity].
cbn [option_map] in IH. unfold acts in IH. cbn [fst snd] in IH.
assert (IH1 : actions tr = actions tr') by congruence.
assert (IH2 : e = e') by congruence. subst e'.
cbn [option_map]. unfold acts. cbn [fst snd].
rewrite !actions_app.
change (Sleep (1000 * i) :: tr) with ([Sleep (1000 * i)] ++ tr).
change (Sleep (1000 * i) :: tr') with ([Sleep (1000 * i)] ++ tr').
rewrite !actions_app. now rewrite Ha, IH1.
Qed.

End RunMore.

(** X13.  The script ends whenever the interval of the response is not 0
    (or the response is not read at all): with fuel above
    [floor(expires_in / interval)] a run ends, whatever the polls answer. *)
Theorem run_terminates (fuel : nat) (w : world) :
  (forall r e i, request1 w = Fetch1Json r ->
     expires_in r = Some e -> interval r = Some i ->
     i <> 0%Z /\ (Z.to_nat (e / i) < fuel)%nat) ->
  exists tr, main fuel w = Some tr.
Proof.
intros H. unfold main.
destruct (isTTY w); cbn [negb]; [|eauto].
destruct (request1 w) as [| |r]; eauto.
destruct (invalid_response r); [eauto|].
destruct (is_ctrl_c (keypress_data w)); [eauto|].
assert (Hp : exists res, poll fuel r (replies w) = Some res).
{ unfold poll. destruct (expires_in r) as [e|] eqn:Ee; [|eauto].
  destruct (interval r) as [i|] eqn:Ei; [|eauto].
  destruct (H r e i eq_refl Ee Ei) as [Hi Hf].
  apply poll_loop_terminates with (z := (e / i)%Z);
    [now apply floor_div_pos | now rewrite Z.sub_0_r]. }
destruct Hp as [[tr e] ->]. eauto.
Qed.

Lemma run_terminates_witness :
  let r := sample_response 900 5 in
  (5 <> 0)%Z /\ (Z.to_nat (900 / 5) < 181)%nat /\
  exists tr,
    main 181 (sample_world r
                (script [reply_slow_down; reply_unknown; PollThrows] reply_pending))
    = Some tr.
Proof.
intro r. split; [discriminate|]. split; [vm_compute; lia|].
apply run_terminates. intros r' e i Hr He Hi.
injection Hr as <-. injection He as <-. injection Hi as <-.
split; [discriminate | vm_compute; lia].
Defined.

(** X14.  With an interval of 0 and an expiry above 0 the budget is
    infinite and the countdown stands still: as long as no answer grants,
    denies or expires, the script polls without pause and without end. *)
Theorem interval_zero_never_ends
    (w : world) (r : response1) (e : Z) (fuel : nat) :
  reaches_polling w r ->
  expires_in r = Some e -> interval r = Some 0%Z -> (0 < e)%Z ->
  (forall n, continues (classify (replies w n)) = true) ->
  floor_div e 0 = PosInf /\ main fuel w = None.
Proof.
intros Hw He Hi H0 Hgo.
assert (Hm : floor_div e 0 = PosInf).
{ unfold floor_div. cbn. now replace (0 <? e)%Z with true
    by (symmetry; apply Z.ltb_lt; assumption). }
split; [exact Hm|].
rewrite (main_polling _ _ _ Hw), (poll_fields _ _ _ _ _ He Hi), Hm.
now rewrite poll_loop_interval_zero.
Qed.

Lemma interval_zero_never_ends_witness :
  let r := sample_response 900 0 in
  let w := sample_world r (fun _ => reply_pending) in
  reaches_polling w r /\ (0 < 900)%Z /\ main 1000 w = None.
Proof.
intros r w.
assert (Hw : reaches_polling w r) by (repeat split).
split; [exact Hw|]. split; [lia|].
apply (interval_zero_never_ends w r 900 1000 Hw eq_refl eq_refl);
  [lia | intros n; reflexivity].
Defined.

(** X16.  A reply that is neither a token nor one of the four known
    errors is logged and otherwise treated as [authorization_pending], and
    so is a network error: two sequences of replies whose outcomes differ
    only among pending, unexpected and failed make the same run, up to the
    lines printed. *)
Theorem unexpected_reply_is_skipped
    (fuel : nat) (w : world) (reply' : nat -> poll_reply) :
  (forall n, same_effect (classify (replies w n)) (classify (reply' n)) = true) ->
  option_map actions (main fuel w) =
  option_map actions (main fuel (with_replies w reply')).
Proof.
intros Hsame. unfold main.
cbn [with_replies isTTY request1 keypress_data replies].
destruct (isTTY w); [|reflexivity]. cbn [negb].
destruct (request1 w) as [| |r]; try reflexivity.
destruct (invalid_response r); [reflexivity|].
destruct (is_ctrl_c (keypress_data w)); [reflexivity|].
assert (Hp : option_map acts (poll fuel r (replies w)) =
             option_map acts (poll fuel r reply')).
{ unfold poll. destruct (expires_in r); [|reflexivity].
  destruct (interval r); [|reflexivity].
  now apply poll_loop_same_effect. }
destruct (poll fuel r (replies w)) as [[tr e]|];
  destruct (poll fuel r reply') as [[tr' e']|];
  try discriminate; [|reflexivity].
cbn [option_map] in Hp. unfold acts in Hp. cbn [fst snd] in Hp.
assert (Ha : actions tr = actions tr') by congruence.
assert (He : e = e') by congruence. subst e'.
cbn [option_map]. rewrite !actions_app. now rewrite Ha.
Qed.

Lemma unexpected_reply_is_skipped_witness :
  let r := sample_response 900 5 in
  let w := sample_world r (script [reply_unknown; PollThrows]
                             (reply_granted (lit "gho_x"))) in
  option_map actions (main 3 w) =
  option_map actions
    (main 3 (with_replies w (script [reply_pending; reply_pending]
                               (reply_granted (lit "gho_x"))))).
Proof.
intros r w. apply unexpected_reply_is_skipped.
intros [|[|[|n]]]; reflexivity.
Defined.

(** X18.  An expiry that is not above 0, a negative interval, or a
    response without one of the two leaves no attempt: the script makes no
    token request, prints the time-out lines and exits with status 1. *)
Theorem no_time_no_poll (w : world) (r : response1) (fuel : nat) :
  reaches_polling w r ->
  match expires_in r, interval r with
  | Some e, Some i => (e <= 0 \/ i < 0)%Z
  | _, _ => True
  end ->
  (0 < fuel)%nat ->
  main fuel w = Some (shown r ++ opened w r ++ [Log MsgTimedOut; Exit 1]).
Proof.
intros Hw H Hfuel. rewrite (main_polling _ _ _ Hw).
assert (Hp : poll fuel r (replies w) = Some ([], Fallthrough)).
{ unfold poll. destruct (expires_in r) as [e|]; [|reflexivity].
  destruct (interval r) as [i|]; [|reflexivity].
  destruct fuel as [|fuel]; [lia|]. rewrite poll_loop_S.
  replace (loop_cond (floor_div e i) e 0) with false; [reflexivity|].
  symmetry. unfold loop_cond, floor_div.
  destruct (Z.ltb_spec 0 e) as [Hpos|Hneg]; [|reflexivity].
  destruct H as [H|H]; [lia|]. cbn [andb].
  replace (i =? 0)%Z with false by (symmetry; apply Z.eqb_neq; lia).
  cbn [lt_num Z.of_nat]. apply Z.ltb_ge.
  pose proof (Z.mul_div_ge e i H). nia. }
now rewrite Hp.
Qed.

Lemma no_time_no_poll_witness :
  let r := sample_response 900 (-5) in
  let w := sample_world r (fun _ => reply_granted (lit "gho_x")) in
  reaches_polling w r /\ (900 <= 0 \/ -5 < 0)%Z /\
  main 1 w = Some (shown r ++ opened w r ++ [Log MsgTimedOut; Exit 1%Z]).
Proof.
intros r w.
assert (Hw : reaches_polling w r) by (repeat split).
split; [exact Hw|]. split; [right; lia|].
apply (no_time_no_poll w r 1 Hw); [right; lia | lia].
Defined.

(** * A failed poll attempt *)

Section FailedAttempt.

Local Open Scope Z_scope.

Lemma passes_snoc (dc : field) (i : Z) (reply : nat -> poll_reply) (k : nat) :
  forall n,
  passes dc i reply n (S k) =
  passes dc i reply n k ++ fst (poll_once dc reply (n + k)) ++ [Sleep (1000 * i)].
Proof.
induction k as [|k IH]; intros n.
- cbn [passes app]. now rewrite Nat.add_0_r.
- change (passes dc i reply n (S (S k)))
    with (fst (poll_once dc reply n) ++ Sleep (1000 * i) :: passes dc i reply (S n) (S k)).
  rewrite IH. cbn [passes].
  replace (S n + k)%nat with (n + S k)%nat by lia.
  now rewrite <- !app_assoc.
Qed.

Lemma poll_once_request_first (dc : field) (reply : nat -> poll_reply) (n : nat) :
  exists evs, fst (poll_once dc reply n) = TokenRequest dc :: evs.
Proof. unfold poll_once. destruct (classify (reply n)); cbn [fst]; eauto. Qed.

(** From a loop whose first [k + 1] passes go on, the fuel these passes
    take gives no result. *)
Lemma poll_loop_short (dc : field) (i : Z) (m : jsnum) (reply : nat -> poll_reply)
    (k f : nat) (x : Z) :
  (forall j, (j < k)%nat ->
     continues (classify (reply j)) = true /\
     loop_cond m (x - Z.of_nat j * i) j = true) ->
  (f <= k)%nat -> poll_loop dc i m reply f x 0 = None.
Proof.
intros H Hf.
replace f with (f + 0)%nat by lia.
rewrite poll_loop_passes; [reflexivity|].
intros j Hj. cbn [Nat.add]. apply H. lia.
Qed.

End FailedAttempt.

(** C7.  A network error on a token request is classified as a transient
    error and swallowed.  In a run that ends, request [k] that failed is
    followed by the error line and the sleep of the interval, and then by
    the next token request, unless the budget is used up, in which case the
    time-out lines and the exit follow: the failed attempt itself ends
    nothing.  When the answer to the next request grants a token, the run
    stores it and exits with status 0.  And a run with network errors does,
    apart from the lines it prints, what the run with
    [authorization_pending] in their place does. *)
Theorem network_error_is_swallowed :
  classify PollThrows = TransientError /\
  (forall (w : world) (r : response1) (e i : Z) (k fuel : nat),
     reaches_polling w r ->
     expires_in r = Some e -> interval r = Some i ->
     (forall j, (j < k)%nat -> continues (classify (replies w j)) = true) ->
     enters e i k = true ->
     replies w k = PollThrows ->
     (forall tr, main fuel w = Some tr ->
        exists pre post,
          tr = pre ++ [TokenRequest (device_code r); Log MsgPollError;
                       Sleep (1000 * i)] ++ post /\
          count_polls pre = k /\
          (enters e i (S k) = true ->
           exists post', post = TokenRequest (device_code r) :: post') /\
          (enters e i (S k) = false -> post = [Log MsgTimedOut; Exit 1])) /\
     (forall t tok,
        enters e i (S k) = true ->
        replies w (S k) = PollJson t ->
        access_token t = Some tok -> tok <> [] ->
        persist_fails w = false -> (S k < fuel)%nat ->
        main fuel w =
          Some (shown r ++ opened w r
                ++ passes (device_code r) i (replies w) 0 k
                ++ [TokenRequest (device_code r); Log MsgPollError;
                    Sleep (1000 * i);
                    TokenRequest (device_code r); Log MsgAuthorized;
                    Log MsgSaving; WriteEnv (save (prior_store w) tok);
                    Log MsgSaved; Exit 0]))) /\
  (forall fuel w,
     option_map actions (main fuel w) =
     option_map actions
       (main fuel (with_replies w (errors_as_pending (replies w))))).
Proof.
split; [reflexivity|]. split.
- intros w r e i k fuel Hw He Hi Hgo Hk Hr.
  assert (Hok : fst (poll_once (device_code r) (replies w) k) =
                [TokenRequest (device_code r); Log MsgPollError]).
  { unfold poll_once. now rewrite Hr. }
  assert (Hgo' : forall j, (j < S k)%nat ->
            continues (classify (replies w (0 + j))) = true /\
            loop_cond (floor_div e i) (e - Z.of_nat j * i) (0 + j) = true).
  { intros j Hj. cbn [Nat.add]. split.
    - destruct (Nat.eq_dec j k) as [->|Hne]; [now rewrite Hr | apply Hgo; lia].
    - rewrite <- enters_cond. apply enters_earlier with (k := k); [exact Hk|lia]. }
  assert (Hpre : count_polls
            (shown r ++ opened w r ++ passes (device_code r) i (replies w) 0 k) = k).
  { rewrite app_assoc, count_polls_app, count_polls_prologue.
    apply count_polls_passes. }
  split.
  + intros tr Hm.
    rewrite (main_polling _ _ _ Hw), (poll_fields _ _ _ _ _ He Hi) in Hm.
    destruct (Nat.le_gt_cases fuel (S k)) as [Hle|Hgt].
    { rewrite (poll_loop_short _ _ _ _ (S k) fuel) in Hm;
        [discriminate | exact Hgo' | exact Hle]. }
    replace fuel with (S k + S (fuel - S (S k)))%nat in Hm by lia.
    rewrite (poll_loop_passes _ _ _ _ (S k) _ _ _ Hgo') in Hm.
    rewrite poll_loop_S in Hm. cbn [Nat.add] in Hm.
    rewrite <- enters_cond, passes_snoc in Hm. cbn [Nat.add] in Hm.
    rewrite Hok in Hm.
    exists (shown r ++ opened w r ++ passes (device_code r) i (replies w) 0 k).
    destruct (enters e i (S k)) eqn:Hn.
    * destruct (poll_once_request_first (device_code r) (replies w) (S k))
        as [evs Hev].
      destruct (poll_once (device_code r) (replies w) (S k)) as [evs0 oe].
      cbn [fst] in Hev. subst evs0.
      destruct oe as [e'|].
      -- exists ((TokenRequest (device_code r) :: evs) ++ after_poll w e').
         split; [|split; [exact Hpre|split; [intros _; eexists; reflexivity|discriminate]]].
         assert (E : shown r ++ opened w r
                     ++ ((passes (device_code r) i (replies w) 0 k
                          ++ [TokenRequest (device_code r); Log MsgPollError]
                          ++ [Sleep (1000 * i)])
                         ++ TokenRequest (device_code r) :: evs)
                     ++ after_poll w e' = tr) by congruence.
         rewrite <- E. now rewrite <- !app_assoc.
      -- destruct (poll_loop _ _ _ _ _ _ _) as [[tr' e']|]; [|discriminate].
         exists (((TokenRequest (device_code r) :: evs)
                  ++ Sleep (1000 * i) :: tr') ++ after_poll w e').
         split; [|split; [exact Hpre|split; [intros _; eexists; reflexivity|discriminate]]].
         assert (E : shown r ++ opened w r
                     ++ ((passes (device_code r) i (replies w) 0 k
                          ++ [TokenRequest (device_code r); Log MsgPollError]
                          ++ [Sleep (1000 * i)])
                         ++ (TokenRequest (device_code r) :: evs)
                         ++ Sleep (1000 * i) :: tr')
                     ++ after_poll w e' = tr) by congruence.
         rewrite <- E. now rewrite <- !app_assoc.
    * exists [Log MsgTimedOut; Exit 1].
      split; [|split; [exact Hpre|split; [discriminate|reflexivity]]].
      assert (E : shown r ++ opened w r
                  ++ ((passes (device_code r) i (replies w) 0 k
                       ++ [TokenRequest (device_code r); Log MsgPollError]
                       ++ [Sleep (1000 * i)]) ++ [])
                  ++ after_poll w Fallthrough = tr) by congruence.
      rewrite <- E. cbn [after_poll]. now rewrite app_nil_r, <- !app_assoc.
  + intros t tok Hn Hr' Ht Htok Hp Hfuel.
    rewrite (main_stops_at w r e i (S k) fuel
               [TokenRequest (device_code r); Log MsgAuthorized] (Break tok));
      try assumption.
    * rewrite passes_snoc. cbn [Nat.add after_poll]. rewrite Hok.
      rewrite store_token_shape, Hp. now rewrite <- !app_assoc.
    * intros j Hj. now apply (Hgo' j).
    * unfold poll_once. rewrite Hr'. cbn [classify]. rewrite Ht.
      destruct tok; [contradiction | reflexivity].
- intros fuel w. unfold main. cbn [with_replies isTTY request1 keypress_data replies].
  destruct (isTTY w); [|reflexivity]. cbn [negb].
  destruct (request1 w) as [| |r]; try reflexivity.
  destruct (invalid_response r); [reflexivity|].
  destruct (is_ctrl_c (keypress_data w)); [reflexivity|].
  assert (Hp : option_map acts (poll fuel r (replies w)) =
               option_map acts (poll fuel r (errors_as_pending (replies w)))).
  { unfold poll. destruct (expires_in r); [|reflexivity].
    destruct (interval r); [|reflexivity].
    apply poll_loop_errors_as_pending. }
  destruct (poll fuel r (replies w)) as [[tr e]|];
    destruct (poll fuel r (errors_as_pending (replies w))) as [[tr' e']|];
    try discriminate; [|reflexivity].
  cbn in Hp. unfold acts in Hp. cbn [fst snd] in Hp.
  injection Hp as Ha He. subst e'. cbn [option_map].
  rewrite !actions_app. now rewrite Ha.
Qed.

Lemma network_error_is_swallowed_witness :
  let r := sample_response 900 5 in
  let w := sample_world r (script [reply_pending; PollThrows]
                             (reply_granted (lit "gho_x"))) in
  reaches_polling w r /\ enters 900 5 1 = true /\ enters 900 5 2 = true /\
  replies w 1 = PollThrows /\ persist_fails w = false /\
  main 3 w =
    Some (shown r ++ opened w r
          ++ [TokenRequest (device_code r); Log MsgPending; Sleep 5000]
          ++ [TokenRequest (device_code r); Log MsgPollError; Sleep (1000 * 5);
              TokenRequest (device_code r); Log MsgAuthorized;
              Log MsgSaving;
              WriteEnv (lit "FOO=bar" ++ LF :: lit "GITHUB_OAUTH_TOKEN=gho_x");
              Log MsgSaved; Exit 0])%Z.
Proof.
intros r w.
assert (Hw : reaches_polling w r) by (repeat split).
split; [exact Hw|]. split; [reflexivity|]. split; [reflexivity|].
split; [reflexivity|]. split; [reflexivity|].
destruct network_error_is_swallowed as (_ & H & _).
destruct (H w r 900%Z 5%Z 1%nat 3%nat Hw eq_refl eq_refl
            ltac:(intros [|j] Hj; [reflexivity | lia]) eq_refl eq_refl)
  as [_ Hg].
exact (Hg {| access_token := Some (lit "gho_x"); error := None |} (lit "gho_x")
          eq_refl eq_refl eq_refl ltac:(discriminate) eq_refl ltac:(lia)).
Defined.
